(** * go-inject: the service container of [container.go] and its helpers

    A shallow embedding of the reflection-driven dependency-injection
    container: registration with its factory validation, resolution with the
    two lifecycles, the recursive binding of factory parameters, and the
    lookup utilities.  Go's run-time types are an inductive type, the
    container is a finite map from types to descriptors, and a factory is a
    small program that may allocate and may call back into the container. *)

From stdpp Require Import gmap strings list fin_maps.

Open Scope string_scope.

(** ** reflect.Type *)

(** Kinds of the named (defined or predeclared) types: struct types,
    interface types, and everything else that is neither a pointer nor a
    function (string, int, bool, ...). *)
Inductive nkind := KStruct | KInterface | KBasic.

(** A run-time type.  [Named] types are identified by kind and qualified
    name, [PtrTo] is [*T], [FuncOf] a function signature. *)
#[warnings="-register-all"]
Inductive rtype :=
| Named (k : nkind) (name : string)
| PtrTo (elem : rtype)
| FuncOf (ins outs : list rtype).

(** reflect.Kind, as far as the container tells kinds apart. *)
Inductive Kind := Struct | Interface | Basic | Ptr | Func.

Global Instance nkind_eq_dec : EqDecision nkind.
Proof. solve_decision. Defined.

Global Instance Kind_eq_dec : EqDecision Kind.
Proof. solve_decision. Defined.

Definition nkind_code (k : nkind) : nat :=
  match k with KStruct => 0 | KInterface => 1 | KBasic => 2 end.

Definition nkind_of_code (n : nat) : nkind :=
  match n with 0 => KStruct | 1 => KInterface | _ => KBasic end.

(** Types are keys of the container's map: they are encoded into stdpp's
    generic trees to get decidable equality and countability. *)
Fixpoint rtype_encode (t : rtype) : gen_tree (nat * string) :=
  match t with
  | Named k name => GenLeaf (nkind_code k, name)
  | PtrTo e => GenNode 0 [rtype_encode e]
  | FuncOf ins outs =>
      GenNode 1 [GenNode 2 (map rtype_encode ins); GenNode 2 (map rtype_encode outs)]
  end.

Fixpoint rtype_decode (g : gen_tree (nat * string)) : rtype :=
  match g with
  | GenLeaf (n, name) => Named (nkind_of_code n) name
  | GenNode 0 [e] => PtrTo (rtype_decode e)
  | GenNode 1 [GenNode _ ins; GenNode _ outs] =>
      FuncOf (map rtype_decode ins) (map rtype_decode outs)
  | _ => Named KBasic ""
  end.

Lemma rtype_decode_encode (t : rtype) : rtype_decode (rtype_encode t) = t.
Proof.
  revert t. fix IH 1. intros [k name|e|ins outs]; simpl.
  - by destruct k.
  - by rewrite IH.
  - f_equal.
    + induction ins as [|a l IHl]; simpl; [done|]. by rewrite IH, IHl.
    + induction outs as [|a l IHl]; simpl; [done|]. by rewrite IH, IHl.
Qed.

Global Instance rtype_eq_dec : EqDecision rtype.
Proof.
  intros x y. destruct (decide (rtype_encode x = rtype_encode y)) as [E|N].
  - left. rewrite <- (rtype_decode_encode x), <- (rtype_decode_encode y).
    by rewrite E.
  - right. intros ->. by apply N.
Defined.

Global Instance rtype_countable : Countable rtype :=
  inj_countable' rtype_encode rtype_decode rtype_decode_encode.

(** [Type.Kind()]. *)
Definition kind_of (t : rtype) : Kind :=
  match t with
  | Named KStruct _ => Struct
  | Named KInterface _ => Interface
  | Named KBasic _ => Basic
  | PtrTo _ => Ptr
  | FuncOf _ _ => Func
  end.

(** [Type.Elem()]; the container calls it on pointer types only. *)
Definition Elem (t : rtype) : rtype :=
  match t with PtrTo e => e | _ => t end.

(** [Type.NumIn()], [Type.NumOut()], [Type.In(i)], [Type.Out(i)]. *)
Definition params (t : rtype) : list rtype :=
  match t with FuncOf ins _ => ins | _ => [] end.

Definition results (t : rtype) : list rtype :=
  match t with FuncOf _ outs => outs | _ => [] end.

Definition NumOut (t : rtype) : nat := length (results t).

Definition Out (t : rtype) (i : nat) : rtype :=
  default (Named KBasic "") (results t !! i).

(** [Type.String()]: the name that the [%s] verbs of the error messages
    print. *)
Fixpoint type_string (t : rtype) : string :=
  match t with
  | Named _ name => name
  | PtrTo e => "*" ++ type_string e
  | FuncOf ins outs =>
      "func(" ++ String.concat ", " (map type_string ins) ++ ")"
      ++ match outs with
         | [] => ""
         | [o] => " " ++ type_string o
         | _ => " (" ++ String.concat ", " (map type_string outs) ++ ")"
         end
  end.

(** The predeclared interface [error], which [Register] obtains as the
    element type of a nil pointer to [error]. *)
Definition errorInterface : rtype := Named KInterface "error".

(** The type [*Container], which [createInstance] obtains from a nil
    pointer to [Container]. *)
Definition containerPtr : rtype := PtrTo (Named KStruct "inject.Container").

(** ** Values, errors and factories *)

(** An [interface{}] value: nil, the container itself (the receiver [c],
    a [*Container]), or any other value with its dynamic type and its data
    word (an address for pointers; 0 is the nil pointer). *)
Inductive value :=
| VNil
| VContainer
| VDyn (ty : rtype) (data : nat).

Global Instance value_eq_dec : EqDecision value.
Proof. solve_decision. Defined.

(** [reflect.TypeOf]: nil for a nil interface. *)
Definition TypeOf (v : value) : option rtype :=
  match v with
  | VNil => None
  | VContainer => Some containerPtr
  | VDyn ty _ => Some ty
  end.

(** The error values of the package, one constructor per place that makes
    one.  [Reported] is the error a factory handed back as its second
    result, kept by its [Error()] text. *)
Inductive error :=
| ErrNotFunc
| ErrArity
| ErrSecondNotError
| ErrNotImplements (returnType sType : rtype)
| ErrTypeMismatch (returnType sType : rtype)
| ErrNotRegistered (serviceType : rtype)
| ErrDependency (argType : rtype) (cause : error)
| Reported (msg : string).

Global Instance error_eq_dec : EqDecision error.
Proof. solve_decision. Defined.

(** [err.Error()], from the format strings of [container.go]. *)
Fixpoint Error (e : error) : string :=
  match e with
  | ErrNotFunc => "factory must be a function"
  | ErrArity =>
      "factory function must return 1 or 2 values (service and optionally error)"
  | ErrSecondNotError => "second return value must be an error"
  | ErrNotImplements r s =>
      "factory return type " ++ type_string r
      ++ " does not implement interface " ++ type_string s
  | ErrTypeMismatch r s =>
      "factory return type " ++ type_string r
      ++ " does not match service type " ++ type_string s
  | ErrNotRegistered t => "service of type " ++ type_string t ++ " not registered"
  | ErrDependency t cause =>
      "failed to resolve dependency " ++ type_string t ++ ": " ++ Error cause
  | Reported msg => msg
  end.

Close Scope string_scope.

(** [errors.Unwrap]: only the [%w] error of [createInstance] wraps. *)
Definition Unwrap (e : error) : option error :=
  match e with ErrDependency _ cause => Some cause | _ => None end.

(** The body of a factory, as far as the container can observe it: it
    returns its results, allocates a fresh object, or calls [c.Resolve] on
    the container it was handed.  A factory with one result ignores the
    error slot of [Return]. *)
Inductive body :=
| Return (inst : value) (err : option string)
| New (k : nat -> body)
| CallResolve (tok : value) (k : value -> option error -> body).

(** A non-nil [interface{}] passed as factory: its dynamic type and, when
    that is a function type, what [reflect.Value.Call] runs. *)
Record factory := MkFactory {
  ftype : rtype;
  fcall : list value -> body
}.

Inductive Lifecycle := Transient | Singleton.

Global Instance Lifecycle_eq_dec : EqDecision Lifecycle.
Proof. solve_decision. Defined.

(** [ServiceDescriptor]; [mu] is true while the descriptor's lock is held
    for writing. *)
Record ServiceDescriptor := MkDescriptor {
  ServiceType : rtype;
  Factory : factory;
  lifecycle : Lifecycle;
  instance : value;
  mu : bool
}.

(** The container with the two observers of the outside world: [next], the
    next fresh address, and [calls], the service types whose factory has
    been invoked, latest first. *)
Record state := MkState {
  services : gmap rtype ServiceDescriptor;
  next : nat;
  calls : list rtype
}.

(** How a call ends: it returns, it panics (a nil dereference or a panic of
    package reflect), it blocks forever on a lock it holds itself, or it
    runs out of fuel. *)
Inductive outcome (A : Type) :=
| Done (a : A) (st : state)
| Panics
| Deadlocks
| OutOfFuel.
Arguments Done {A} a st.
Arguments Panics {A}.
Arguments Deadlocks {A}.
Arguments OutOfFuel {A}.

Definition bind {A B} (m : outcome A) (k : A -> state -> outcome B) : outcome B :=
  match m with
  | Done a st => k a st
  | Panics => Panics
  | Deadlocks => Deadlocks
  | OutOfFuel => OutOfFuel
  end.

(** ** The container *)

Section Container.

(** [Type.Implements]: whether the method set of the first type covers the
    interface type given second.  It is a fact of the program's type
    declarations, so the container is modelled for any such relation. *)
Variable implements : rtype -> rtype -> bool.

(** [NewContainer]: an empty map; nothing allocated, nothing invoked. *)
Definition NewContainer : state :=
  {| services := ∅; next := 1; calls := [] |}.

(** The key under which a token is filed: the dynamic type, with one
    pointer level taken off when it is a pointer type
    ([if sType.Kind() == reflect.Ptr] then [sType = sType.Elem()]). *)
Definition service_key (sType : rtype) : rtype :=
  if decide (kind_of sType = Ptr) then Elem sType else sType.

Definition set_services (m : gmap rtype ServiceDescriptor) (st : state) : state :=
  {| services := m; next := next st; calls := calls st |}.

(** The type-compatibility check of [Register] (lines 63 to 79): [None]
    when the factory's first result fits the service type, the error
    otherwise. *)
Definition check_compatible (returnType sType : rtype) : option error :=
  if decide (kind_of sType = Interface) then
    if negb (implements returnType sType)
    then Some (ErrNotImplements returnType sType)
    else None
  else
    if decide (returnType ≠ sType) then
      if decide (kind_of returnType = Ptr ∧ Elem returnType = sType) then None
      else if decide (kind_of sType = Ptr ∧ Elem sType = returnType) then None
      else Some (ErrTypeMismatch returnType sType)
    else None.

(** The signature checks of [Register] (lines 44 to 58). *)
Definition check_factory (factoryType : rtype) : option error :=
  if decide (kind_of factoryType ≠ Func) then Some ErrNotFunc
  else if decide (NumOut factoryType ≠ 1 ∧ NumOut factoryType ≠ 2)
  then Some ErrArity
  else if bool_decide (NumOut factoryType = 2)
            && negb (implements (Out factoryType 1) errorInterface)
  then Some ErrSecondNotError
  else None.

(** [Register].  Both [serviceType] and [factory] are [interface{}]
    arguments: [reflect.TypeOf] of a nil interface is nil, and the first
    method called on it panics. *)
Definition Register (serviceType : value) (factory : option factory)
    (lc : Lifecycle) (st : state) : outcome (option error) :=
  match TypeOf serviceType with
  | None => Panics
  | Some sType0 =>
      let sType := service_key sType0 in
      match factory with
      | None => Panics
      | Some f =>
          let factoryType := ftype f in
          match check_factory factoryType with
          | Some err => Done (Some err) st
          | None =>
              let returnType := Out factoryType 0 in
              match check_compatible returnType sType with
              | Some err => Done (Some err) st
              | None =>
                  let descriptor :=
                    {| ServiceType := sType; Factory := f; lifecycle := lc;
                       instance := VNil; mu := false |} in
                  Done None (set_services (<[sType := descriptor]> (services st)) st)
              end
          end
      end
  end.

Definition RegisterSingleton (serviceType : value) (factory : option factory)
    (st : state) : outcome (option error) :=
  Register serviceType factory Singleton st.

Definition RegisterTransient (serviceType : value) (factory : option factory)
    (st : state) : outcome (option error) :=
  Register serviceType factory Transient st.

(** [Has]. *)
Definition Has (serviceType : value) (st : state) : outcome bool :=
  match TypeOf serviceType with
  | None => Panics
  | Some sType0 =>
      Done (bool_decide (is_Some (services st !! service_key sType0))) st
  end.

(** [GetServiceTypes]: the keys of the map, in the map's own order. *)
Definition GetServiceTypes (st : state) : list rtype :=
  (map_to_list (services st)).*1.

(** [Clear]: a new empty map takes the place of the old one. *)
Definition Clear (st : state) : state := set_services ∅ st.

(** *** Resolution *)

Definition resolver := rtype -> state -> outcome (value * option error).

(** [c.Resolve] on top of a given [resolveType]. *)
Definition Resolve_with (resolveType : resolver) (serviceType : value)
    (st : state) : outcome (value * option error) :=
  match TypeOf serviceType with
  | None => Panics
  | Some sType0 => resolveType (service_key sType0) st
  end.

Definition fresh (st : state) : state :=
  {| services := services st; next := S (next st); calls := calls st |}.

Definition record_call (t : rtype) (st : state) : state :=
  {| services := services st; next := next st; calls := t :: calls st |}.

(** Running a factory body; its calls to [c.Resolve] go to [resolveType]. *)
Fixpoint run_body (resolveType : resolver) (b : body) (st : state)
    : outcome (value * option string) :=
  match b with
  | Return inst err => Done (inst, err) st
  | New k => run_body resolveType (k (next st)) (fresh st)
  | CallResolve tok k =>
      bind (Resolve_with resolveType tok st)
           (fun r st' => run_body resolveType (k r.1 r.2) st')
  end.

(** The argument loop of [createInstance] (lines 148 to 162): [args] are
    the arguments bound so far. *)
Fixpoint bind_args (resolveType : resolver) (argTypes : list rtype)
    (args : list value) (st : state) : outcome (list value + error) :=
  match argTypes with
  | [] => Done (inl args) st
  | argType :: rest =>
      if decide (argType = containerPtr)
      then bind_args resolveType rest (args ++ [VContainer]) st
      else
        bind (resolveType argType st) (fun r st' =>
          match r.2 with
          | Some err => Done (inr (ErrDependency argType err)) st'
          | None => bind_args resolveType rest (args ++ [r.1]) st'
          end)
  end.

(** What [reflect.Value.Call] demands of an argument before it calls: it
    is not the zero Value (which [reflect.ValueOf] makes of a nil
    interface) and its type is assignable to the parameter's. *)
Definition assignable (arg : value) (argType : rtype) : bool :=
  match TypeOf arg with
  | None => false
  | Some t =>
      bool_decide (t = argType)
      || (bool_decide (kind_of argType = Interface) && implements t argType)
  end.

Fixpoint args_assignable (args : list value) (argTypes : list rtype) : bool :=
  match args, argTypes with
  | [], [] => true
  | a :: args', t :: argTypes' => assignable a t && args_assignable args' argTypes'
  | _, _ => false
  end.

(** [Value.IsNil] panics unless the kind can be nil. *)
Definition nilable (t : rtype) : bool :=
  match kind_of t with
  | Interface | Ptr | Func => true
  | Struct | Basic => false
  end.

(** [createInstance]. *)
Definition createInstance (resolveType : resolver)
    (descriptor : ServiceDescriptor) (st : state)
    : outcome (value * option error) :=
  let f := Factory descriptor in
  let factoryType := ftype f in
  if decide (kind_of factoryType ≠ Func) then Panics else
  bind (bind_args resolveType (params factoryType) [] st) (fun a st1 =>
    match a with
    | inr err => Done (VNil, Some err) st1
    | inl args =>
        if negb (args_assignable args (params factoryType)) then Panics else
        bind (run_body resolveType (fcall f args)
                (record_call (ServiceType descriptor) st1))
          (fun r st2 =>
             if decide (NumOut factoryType = 2) then
               if negb (nilable (Out factoryType 1)) then Panics else
               match r.2 with
               | Some msg => Done (VNil, Some (Reported msg)) st2
               | None => Done (r.1, None) st2
               end
             else Done (r.1, None) st2)
    end).

Definition set_mu (b : bool) (d : ServiceDescriptor) : ServiceDescriptor :=
  {| ServiceType := ServiceType d; Factory := Factory d;
     lifecycle := lifecycle d; instance := instance d; mu := b |}.

Definition set_instance (v : value) (d : ServiceDescriptor) : ServiceDescriptor :=
  {| ServiceType := ServiceType d; Factory := Factory d;
     lifecycle := lifecycle d; instance := v; mu := mu d |}.

(** An update through the descriptor pointer that [resolveType] holds. *)
Definition update (t : rtype) (f : ServiceDescriptor -> ServiceDescriptor)
    (st : state) : state :=
  set_services (alter f t (services st)) st.

(** [resolveType].  The recursion through [createInstance] is bounded by
    [fuel]: the source has no cycle detection.  A singleton takes its
    descriptor's lock around the creation; a resolution that comes back to
    a descriptor it has locked blocks on it. *)
Fixpoint resolveType (fuel : nat) (serviceType : rtype) (st : state)
    : outcome (value * option error) :=
  match fuel with
  | O => OutOfFuel
  | S fuel' =>
      match services st !! serviceType with
      | None => Done (VNil, Some (ErrNotRegistered serviceType)) st
      | Some descriptor =>
          if decide (lifecycle descriptor = Singleton) then
            if mu descriptor then Deadlocks else
            if decide (instance descriptor ≠ VNil)
            then Done (instance descriptor, None) st
            else
              bind (createInstance (resolveType fuel') descriptor
                      (update serviceType (set_mu true) st))
                (fun r st' =>
                   match r.2 with
                   | Some err =>
                       Done (VNil, Some err) (update serviceType (set_mu false) st')
                   | None =>
                       Done (r.1, None)
                         (update serviceType (set_mu false)
                            (update serviceType (set_instance r.1) st'))
                   end)
          else createInstance (resolveType fuel') descriptor st
      end
  end.

(** [Resolve]. *)
Definition Resolve (fuel : nat) (serviceType : value) (st : state)
    : outcome (value * option error) :=
  Resolve_with (resolveType fuel) serviceType st.

End Container.

(** ** What a resolution may change *)

Section Frame.

Variable implements : rtype -> rtype -> bool.

(** A descriptor after some resolutions: the same registration, the same
    lock state, and the same instance unless an empty, unlocked singleton
    slot has been filled. *)
Record desc_ext (d d' : ServiceDescriptor) : Prop := {
  ext_type : ServiceType d' = ServiceType d;
  ext_factory : Factory d' = Factory d;
  ext_lifecycle : lifecycle d' = lifecycle d;
  ext_mu : mu d' = mu d;
  ext_instance :
    instance d' = instance d
    ∨ (instance d = VNil ∧ lifecycle d = Singleton ∧ mu d = false)
}.

Definition slot_ext (o o' : option ServiceDescriptor) : Prop :=
  match o, o' with
  | None, None => True
  | Some d, Some d' => desc_ext d d'
  | _, _ => False
  end.

(** A state after some resolutions: the same keys with extended
    descriptors, addresses only handed out, invocations only added. *)
Record state_ext (st st' : state) : Prop := {
  ext_services : ∀ t, slot_ext (services st !! t) (services st' !! t);
  ext_next : next st ≤ next st';
  ext_calls : calls st `suffix_of` calls st'
}.

Lemma desc_ext_refl d : desc_ext d d.
Proof. split; auto. Qed.

Lemma desc_ext_trans d1 d2 d3 : desc_ext d1 d2 → desc_ext d2 d3 → desc_ext d1 d3.
Proof.
  intros [T1 F1 L1 M1 I1] [T2 F2 L2 M2 I2]. split; try congruence.
  destruct I2 as [E2|(N2 & S2 & U2)].
  - rewrite E2. exact I1.
  - destruct I1 as [E1|H1]; [|by right].
    right. repeat split; congruence.
Qed.

Lemma slot_ext_refl o : slot_ext o o.
Proof. destruct o; simpl; auto using desc_ext_refl. Qed.

Lemma slot_ext_trans o1 o2 o3 : slot_ext o1 o2 → slot_ext o2 o3 → slot_ext o1 o3.
Proof.
  destruct o1, o2, o3; simpl; try tauto. apply desc_ext_trans.
Qed.

Lemma state_ext_refl st : state_ext st st.
Proof. split; [intros; apply slot_ext_refl|lia|reflexivity]. Qed.

Lemma state_ext_trans st1 st2 st3 :
  state_ext st1 st2 → state_ext st2 st3 → state_ext st1 st3.
Proof.
  intros [S1 N1 C1] [S2 N2 C2]. split.
  - intros t. eapply slot_ext_trans; eauto.
  - lia.
  - by etrans; [exact C1|].
Qed.

Lemma state_ext_fresh st : state_ext st (fresh st).
Proof. split; simpl; [intros; apply slot_ext_refl|lia|reflexivity]. Qed.

Lemma state_ext_record_call t st : state_ext st (record_call t st).
Proof.
  split; simpl; [intros; apply slot_ext_refl|lia|]. by apply suffix_cons_r.
Qed.

Lemma lookup_update t u f st :
  services (update t f st) !! u
  = if decide (t = u) then f <$> services st !! u else services st !! u.
Proof.
  unfold update; simpl. rewrite lookup_alter. by case_decide; subst.
Qed.

(** A resolver that only extends the state. *)
Definition extending (r : resolver) : Prop :=
  ∀ t st a st', r t st = Done a st' → state_ext st st'.

Lemma Resolve_with_ext r tok st a st' :
  extending r → Resolve_with r tok st = Done a st' → state_ext st st'.
Proof.
  unfold Resolve_with. intros Hr. destruct (TypeOf tok); [|done]. apply Hr.
Qed.

Lemma run_body_ext r b : extending r →
  ∀ st a st', run_body r b st = Done a st' → state_ext st st'.
Proof.
  intros Hr. induction b as [inst err|k IH|tok k IH]; simpl; intros st a st' H.
  - injection H as <- <-. apply state_ext_refl.
  - eapply state_ext_trans; [apply state_ext_fresh|]. eapply IH, H.
  - destruct (Resolve_with r tok st) as [[v e] st1| | |] eqn:E; try done.
    simpl in H. eapply state_ext_trans.
    + eapply Resolve_with_ext; eauto.
    + eapply IH, H.
Qed.

Lemma bind_args_ext r argTypes : extending r →
  ∀ args st a st', bind_args r argTypes args st = Done a st' → state_ext st st'.
Proof.
  intros Hr. induction argTypes as [|argType rest IH]; simpl; intros args st a st' H.
  - injection H as <- <-. apply state_ext_refl.
  - case_decide.
    + eapply IH, H.
    + destruct (r argType st) as [[v e] st1| | |] eqn:E; try done.
      simpl in H. apply Hr in E. destruct e as [err|].
      * by injection H as <- <-.
      * eapply state_ext_trans; [exact E|]. eapply IH, H.
Qed.

(** The shape of a returning [createInstance]: the arguments were bound,
    and either a dependency failed, or the factory was called once with
    them and its results were passed on. *)
Lemma createInstance_inv r d st a st' :
  createInstance implements r d st = Done a st' →
  kind_of (ftype (Factory d)) = Func ∧
  ((∃ err, bind_args r (params (ftype (Factory d))) [] st = Done (inr err) st'
           ∧ a = (VNil, Some err))
   ∨ (∃ args st1 inst err,
        bind_args r (params (ftype (Factory d))) [] st = Done (inl args) st1
        ∧ args_assignable implements args (params (ftype (Factory d))) = true
        ∧ run_body r (fcall (Factory d) args)
            (record_call (ServiceType d) st1) = Done (inst, err) st'
        ∧ a = (if decide (NumOut (ftype (Factory d)) = 2)
               then match err with
                    | Some msg => (VNil, Some (Reported msg))
                    | None => (inst, None)
                    end
               else (inst, None))
        ∧ (NumOut (ftype (Factory d)) = 2 →
           nilable (Out (ftype (Factory d)) 1) = true))).
Proof.
  unfold createInstance. intros H. case_decide as K; [done|].
  split; [by destruct (decide (kind_of (ftype (Factory d)) = Func)); [|contradict K]|].
  destruct (bind_args _ _ _ _) as [[args|err] st1| | |] eqn:B; try done; simpl in H.
  - right.
    destruct (args_assignable _ _ _) eqn:A; simpl in H; [|done].
    destruct (run_body _ _ _) as [[inst err] st2| | |] eqn:R; try done; simpl in H.
    exists args, st1, inst, err.
    case_decide as N2.
    + destruct (nilable _) eqn:Nil; simpl in H; [|done].
      destruct err; injection H as <- <-; auto.
    + injection H as <- <-. split_and!; auto.
  - left. injection H as <- <-. eauto.
Qed.

Lemma createInstance_ext r d st a st' : extending r →
  createInstance implements r d st = Done a st' → state_ext st st'.
Proof.
  intros Hr H. apply createInstance_inv in H as [_ [(err & B & _)|(args & st1 & inst & err & B & _ & R & _)]].
  - eapply bind_args_ext; eauto.
  - eapply state_ext_trans; [eapply bind_args_ext; eauto|].
    eapply state_ext_trans; [apply state_ext_record_call|].
    eapply run_body_ext; eauto.
Qed.

Lemma unlock_ext t d st st' (g : ServiceDescriptor → ServiceDescriptor) :
  services st !! t = Some d → mu d = false → instance d = VNil →
  lifecycle d = Singleton →
  (∀ d', g d' = d' ∨ ∃ v, g d' = set_instance v d') →
  state_ext (update t (set_mu true) st) st' →
  state_ext st (update t (set_mu false) (update t g st')).
Proof.
  intros L M I LC Hg [S N C]. split; [|exact N|exact C].
  intros u. specialize (S u). rewrite !lookup_update. rewrite lookup_update in S.
  case_decide as E; [subst u|exact S].
  rewrite L in S. simpl in S.
  destruct (services st' !! t) as [d1|]; [|done]. simpl.
  destruct S as [T1 F1 L1 M1 I1]. simpl in *.
  assert (instance d1 = VNil) as I1'.
  { destruct I1 as [?|(_ & _ & ?)]; congruence. }
  rewrite L. simpl.
  destruct (Hg d1) as [->|[v ->]]; split; simpl; auto.
Qed.

(** Every returning [resolveType] only extends the state. *)
Lemma resolveType_ext fuel : extending (resolveType implements fuel).
Proof.
  induction fuel as [|fuel IH]; intros t st a st' H; simpl in H; [done|].
  destruct (services st !! t) as [d|] eqn:L.
  - case_decide as LC.
    + destruct (mu d) eqn:M; [done|]. case_decide as I.
      * injection H as <- <-. apply state_ext_refl.
      * assert (instance d = VNil) as I' by (by destruct (decide (instance d = VNil))).
        destruct (createInstance _ _ _ _) as [[v e] st1| | |] eqn:C; try done.
        simpl in H. apply createInstance_ext in C; [|exact IH].
        destruct e; injection H as <- <-.
        -- replace (update t (set_mu false) st1)
             with (update t (set_mu false) (update t id st1)).
           ++ eapply unlock_ext; eauto.
           ++ unfold update at 2. rewrite alter_id by done. by destruct st1.
        -- eapply unlock_ext; eauto.
    + eapply createInstance_ext; eauto.
  - injection H as <- <-. apply state_ext_refl.
Qed.

Lemma Resolve_ext fuel tok st a st' :
  Resolve implements fuel tok st = Done a st' → state_ext st st'.
Proof. apply Resolve_with_ext, resolveType_ext. Qed.

End Frame.

(** ** Registration *)

Section Registration.

Variable implements : rtype -> rtype -> bool.

Lemma service_key_ptr e : service_key (PtrTo e) = e.
Proof. reflexivity. Qed.

Lemma service_key_other t : kind_of t ≠ Ptr → service_key t = t.
Proof. unfold service_key. intros H. by case_decide. Qed.

(** The three complaints about the factory's signature. *)
Definition malformed_error (e : error) : Prop :=
  e = ErrNotFunc ∨ e = ErrArity ∨ e = ErrSecondNotError.

(** The two complaints about its result type. *)
Definition mismatch_error (e : error) : Prop :=
  ∃ r s, e = ErrNotImplements r s ∨ e = ErrTypeMismatch r s.

(** A factory type that none of the signature checks rejects. *)
Definition well_formed (factoryType : rtype) : Prop :=
  kind_of factoryType = Func
  ∧ (NumOut factoryType = 1 ∨ NumOut factoryType = 2)
  ∧ (NumOut factoryType = 2 → implements (Out factoryType 1) errorInterface = true).

Lemma check_factory_None factoryType :
  check_factory implements factoryType = None ↔ well_formed factoryType.
Proof.
  unfold check_factory, well_formed. split.
  - intros H. case_decide as K; [done|]. case_decide as A; [done|].
    destruct (bool_decide (NumOut factoryType = 2)) eqn:B.
    + apply bool_decide_eq_true in B.
      destruct (implements _ _) eqn:I; [|done].
      split_and!; auto.
    + apply bool_decide_eq_false in B. split_and!; [|lia|done].
      by destruct (decide (kind_of factoryType = Func)).
  - intros (K & A & I). case_decide; [done|]. case_decide; [lia|].
    destruct (bool_decide (NumOut factoryType = 2)) eqn:B; [|done].
    apply bool_decide_eq_true in B. by rewrite (I B).
Qed.

Lemma check_factory_Some factoryType e :
  check_factory implements factoryType = Some e → malformed_error e.
Proof.
  unfold check_factory, malformed_error. intros H.
  case_decide; [injection H as <-; auto|].
  case_decide; [injection H as <-; auto|].
  destruct (_ && _); [injection H as <-; auto|done].
Qed.

Lemma not_well_formed factoryType :
  ¬ well_formed factoryType ↔
  (kind_of factoryType ≠ Func
   ∨ (NumOut factoryType ≠ 1 ∧ NumOut factoryType ≠ 2)
   ∨ (NumOut factoryType = 2
      ∧ implements (Out factoryType 1) errorInterface = false)).
Proof.
  unfold well_formed. split.
  - intros H. destruct (decide (kind_of factoryType = Func)) as [K|K]; [|by left].
    right. destruct (decide (NumOut factoryType = 1)) as [N1|N1].
    + exfalso. apply H. split_and!; auto. intros N2. lia.
    + destruct (decide (NumOut factoryType = 2)) as [N2|N2]; [|by left].
      right. split; [done|].
      destruct (implements _ _) eqn:I; [|done]. exfalso. apply H. auto.
  - intros [K|[[N1 N2]|[N2 I]]] (K' & A & I'); [done|lia|].
    rewrite (I' N2) in I. done.
Qed.

Lemma check_compatible_Some r s e :
  check_compatible implements r s = Some e →
  (kind_of s = Interface ∧ implements r s = false ∧ e = ErrNotImplements r s)
  ∨ (kind_of s ≠ Interface ∧ r ≠ s ∧ r ≠ PtrTo s ∧ s ≠ PtrTo r
     ∧ e = ErrTypeMismatch r s).
Proof.
  unfold check_compatible. intros H.
  case_decide as K.
  - left. destruct (implements r s); [done|]. by injection H as <-.
  - right. case_decide as N; [|done]. case_decide as P1; [done|].
    case_decide as P2; [done|]. injection H as <-.
    split_and!; auto.
    + intros ->. apply P1. done.
    + intros ->. apply P2. done.
Qed.

Lemma check_compatible_None r s :
  check_compatible implements r s = None →
  (kind_of s = Interface ∧ implements r s = true)
  ∨ (kind_of s ≠ Interface ∧ (r = s ∨ r = PtrTo s ∨ s = PtrTo r)).
Proof.
  unfold check_compatible. intros H.
  case_decide as K.
  - left. by destruct (implements r s).
  - right. split; [done|]. case_decide as N.
    + case_decide as P1.
      * destruct P1 as [P1 <-]. destruct r; try done. auto.
      * case_decide as P2; [|done]. destruct P2 as [P2 <-].
        destruct s; try done. auto.
    + left. by destruct (decide (r = s)).
Qed.

(** The possible ends of a [Register] call on a non-nil token and a
    non-nil factory. *)
Lemma Register_cases tok sType0 f lc st :
  TypeOf tok = Some sType0 →
  (∃ e, check_factory implements (ftype f) = Some e
        ∧ Register implements tok (Some f) lc st = Done (Some e) st)
  ∨ (∃ e, check_factory implements (ftype f) = None
          ∧ check_compatible implements (Out (ftype f) 0) (service_key sType0) = Some e
          ∧ Register implements tok (Some f) lc st = Done (Some e) st)
  ∨ (check_factory implements (ftype f) = None
     ∧ check_compatible implements (Out (ftype f) 0) (service_key sType0) = None
     ∧ Register implements tok (Some f) lc st
       = Done None
           (set_services
              (<[service_key sType0 :=
                   MkDescriptor (service_key sType0) f lc VNil false]>
                 (services st)) st)).
Proof.
  intros T. unfold Register. rewrite T.
  destruct (check_factory implements (ftype f)) as [e|]; [left; eauto|].
  right. destruct (check_compatible _ _ _) as [e|]; [left; eauto|].
  right. done.
Qed.

(** C6 (as amended): for a non-nil token and a non-nil factory value,
    [Register] returns one of the three malformed-factory errors exactly
    when the factory is not a function, or has neither one nor two results,
    or has two results of which the second does not implement [error]; the
    container is then as it was.  A nil factory or a nil token makes
    [Register] panic instead of returning an error. *)
Theorem register_malformed_factory tok sType0 f lc st :
  TypeOf tok = Some sType0 →
  ((kind_of (ftype f) ≠ Func
    ∨ (NumOut (ftype f) ≠ 1 ∧ NumOut (ftype f) ≠ 2)
    ∨ (NumOut (ftype f) = 2
       ∧ implements (Out (ftype f) 1) errorInterface = false))
   ↔ ∃ e st', malformed_error e
              ∧ Register implements tok (Some f) lc st = Done (Some e) st')
  ∧ (∀ e st', malformed_error e →
       Register implements tok (Some f) lc st = Done (Some e) st' → st' = st)
  ∧ Register implements tok None lc st = Panics
  ∧ Register implements VNil (Some f) lc st = Panics.
Proof.
  intros T. split_and!.
  - rewrite <- not_well_formed, <- check_factory_None. split.
    + intros H. destruct (Register_cases tok sType0 f lc st T)
        as [(e & C & R)|[(e & C & _)|(C & _)]]; try done.
      exists e, st. split; [by eapply check_factory_Some|done].
    + intros (e & st' & M & R) C.
      destruct (Register_cases tok sType0 f lc st T)
        as [(e' & C' & _)|[(e' & _ & K & R')|(_ & _ & R')]]; try congruence.
      rewrite R' in R. injection R as -> _.
      apply check_compatible_Some in K as [(_ & _ & ->)|(_ & _ & _ & _ & ->)];
        destruct M as [?|[?|?]]; done.
  - intros e st' _ R.
    destruct (Register_cases tok sType0 f lc st T)
      as [(e' & _ & R')|[(e' & _ & _ & R')|(_ & _ & R')]]; congruence.
  - unfold Register. by rewrite T.
  - done.
Qed.

(** C3: for a non-nil token and a well-formed factory with first result
    type R and service type S (the token's key): when S is an interface,
    [Register] succeeds exactly when R implements S and otherwise returns
    the error that names R and S; when S is concrete, it succeeds exactly
    when R is S, R is a pointer to S, or S is a pointer to R, and otherwise
    returns the mismatch error naming both.  A [Register] that returns an
    error leaves the container as it was. *)
Theorem register_type_compatibility tok sType0 f lc st :
  TypeOf tok = Some sType0 →
  well_formed (ftype f) →
  (kind_of (service_key sType0) = Interface →
     (implements (Out (ftype f) 0) (service_key sType0) = true
      ↔ ∃ st', Register implements tok (Some f) lc st = Done None st')
     ∧ (implements (Out (ftype f) 0) (service_key sType0) = false
        ↔ Register implements tok (Some f) lc st
          = Done (Some (ErrNotImplements (Out (ftype f) 0) (service_key sType0))) st))
  ∧ (kind_of (service_key sType0) ≠ Interface →
     ((Out (ftype f) 0 = service_key sType0
       ∨ Out (ftype f) 0 = PtrTo (service_key sType0)
       ∨ service_key sType0 = PtrTo (Out (ftype f) 0))
      ↔ ∃ st', Register implements tok (Some f) lc st = Done None st')
     ∧ (¬ (Out (ftype f) 0 = service_key sType0
           ∨ Out (ftype f) 0 = PtrTo (service_key sType0)
           ∨ service_key sType0 = PtrTo (Out (ftype f) 0))
        ↔ Register implements tok (Some f) lc st
          = Done (Some (ErrTypeMismatch (Out (ftype f) 0) (service_key sType0))) st))
  ∧ (∀ e st', Register implements tok (Some f) lc st = Done (Some e) st' →
       st' = st ∧ mismatch_error e
       ∧ (Error e = "factory return type " +:+ type_string (Out (ftype f) 0)
                    +:+ " does not implement interface "
                    +:+ type_string (service_key sType0)
          ∨ Error e = "factory return type " +:+ type_string (Out (ftype f) 0)
                      +:+ " does not match service type "
                      +:+ type_string (service_key sType0))).
Proof.
  intros T W. apply check_factory_None in W.
  destruct (Register_cases tok sType0 f lc st T)
    as [(e & C & R)|[(e & _ & K & R)|(_ & K & R)]]; [congruence|..]; rewrite R.
  - apply check_compatible_Some in K
      as [(KI & I & ->)|(KI & N1 & N2 & N3 & ->)].
    + split_and!; [|done|].
      * intros _. rewrite I. split; [split; [done|by intros [? ?]]|done].
      * intros e' st' [= <- <-].
        split_and!; [done|by eexists _, _; left|by left].
    + split_and!; [done| |].
      * intros _. split; [split; [intros [?|[?|?]]; congruence|by intros [? ?]]|].
        split; [done|intros _ [?|[?|?]]; congruence].
      * intros e' st' [= <- <-].
        split_and!; [done|by eexists _, _; right|by right].
  - apply check_compatible_None in K as [(KI & I)|(KI & E)].
    + split_and!; [|done|done].
      intros _. rewrite I. split; [split; eauto|done].
    + split_and!; [done| |done].
      intros _. split; [split; eauto|]. split; [tauto|done].
Qed.



End Registration.

(** ** Resolution *)

Section Resolution.

Variable implements : rtype -> rtype -> bool.

(** The state in which [resolveType] calls [createInstance]: for a
    singleton the descriptor's lock is held. *)
Definition creation_state (t : rtype) (d : ServiceDescriptor) (st : state) : state :=
  if decide (lifecycle d = Singleton) then update t (set_mu true) st else st.

(** The state [resolveType] leaves behind after [createInstance] returned
    [a] in [st]: a singleton stores a successful result and releases the
    lock. *)
Definition creation_exit (t : rtype) (d : ServiceDescriptor)
    (a : value * option error) (st : state) : state :=
  if decide (lifecycle d = Singleton) then
    match a.2 with
    | Some _ => update t (set_mu false) st
    | None => update t (set_mu false) (update t (set_instance a.1) st)
    end
  else st.

(** States reached by further [Resolve] calls that return. *)
Inductive after_resolves : state → state → Prop :=
| after_none st : after_resolves st st
| after_resolve st fuel tok a st1 st2 :
    Resolve implements fuel tok st = Done a st1 →
    after_resolves st1 st2 →
    after_resolves st st2.

Lemma after_resolves_ext st st' : after_resolves st st' → state_ext st st'.
Proof.
  induction 1 as [|st fuel tok a st1 st2 R _ IH]; [apply state_ext_refl|].
  eapply state_ext_trans; [|exact IH]. eapply Resolve_ext, R.
Qed.

Lemma resolveType_unregistered fuel t st :
  services st !! t = None →
  resolveType implements (S fuel) t st = Done (VNil, Some (ErrNotRegistered t)) st.
Proof. intros L. simpl. by rewrite L. Qed.

Lemma resolveType_cached fuel t d st :
  services st !! t = Some d → lifecycle d = Singleton → mu d = false →
  instance d ≠ VNil →
  resolveType implements (S fuel) t st = Done (instance d, None) st.
Proof.
  intros L LC M I. simpl. rewrite L, M. by repeat case_decide.
Qed.

(** A resolution that finds an empty slot goes through [createInstance]. *)
Lemma resolveType_creates fuel t d st :
  services st !! t = Some d →
  lifecycle d = Transient ∨ (instance d = VNil ∧ mu d = false) →
  resolveType implements (S fuel) t st
  = bind (createInstance implements (resolveType implements fuel) d
            (creation_state t d st))
      (fun a st' =>
         Done (if decide (lifecycle d = Singleton)
               then match a.2 with Some e => (VNil, Some e) | None => (a.1, None) end
               else a)
           (creation_exit t d a st')).
Proof.
  intros L H. simpl. rewrite L. unfold creation_state, creation_exit.
  case_decide as LC.
  - destruct H as [H|[I M]]; [congruence|]. rewrite M.
    case_decide; [done|].
    destruct (createInstance _ _ _ _) as [[v e] st1| | |]; try done.
    simpl. by destruct e.
  - by destruct (createInstance _ _ _ _) as [[v e] st1| | |].
Qed.

Lemma resolveType_creates_inv fuel t d st a st' :
  services st !! t = Some d →
  lifecycle d = Transient ∨ instance d = VNil →
  resolveType implements fuel t st = Done a st' →
  ∃ fuel' a1 st1,
    fuel = S fuel'
    ∧ (lifecycle d = Singleton → mu d = false)
    ∧ createInstance implements (resolveType implements fuel') d
        (creation_state t d st) = Done a1 st1
    ∧ a = (if decide (lifecycle d = Singleton)
           then match a1.2 with Some e => (VNil, Some e) | None => (a1.1, None) end
           else a1)
    ∧ st' = creation_exit t d a1 st1.
Proof.
  intros L H R. destruct fuel as [|fuel]; [done|].
  assert (lifecycle d = Singleton → mu d = false) as M.
  { intros LC. simpl in R. rewrite L in R. case_decide; [|done].
    by destruct (mu d). }
  rewrite (resolveType_creates _ _ d) in R; [|done|].
  - destruct (createInstance _ _ _ _) as [a1 st1| | |] eqn:C; try done.
    simpl in R. injection R as <- <-. by exists fuel, a1, st1.
  - destruct H as [H|H]; [by left|].
    destruct (lifecycle d) eqn:LC; [by left|]. right. auto.
Qed.

Lemma bind_args_failure r argTypes : ∀ args st e st',
  bind_args r argTypes args st = Done (inr e) st' →
  ∃ P cause, e = ErrDependency P cause ∧ P ∈ argTypes ∧ P ≠ containerPtr.
Proof.
  induction argTypes as [|argType rest IH]; simpl; intros args st e st' H; [done|].
  case_decide as C.
  - destruct (IH _ _ _ _ H) as (P & cause & -> & I & N).
    exists P, cause. split_and!; auto. by right.
  - destruct (r argType st) as [[v [err|]] st1| | |]; try done; simpl in H.
    + injection H as <- <-. exists argType, err. split_and!; auto. by left.
    + destruct (IH _ _ _ _ H) as (P & cause & -> & I & N).
      exists P, cause. split_and!; auto. by right.
Qed.

(** What [createInstance] can return: a dependency error for one of the
    factory's parameters, before any call of the factory; or what the
    called factory returned. *)
Lemma createInstance_outcome r d st a st' :
  extending r →
  createInstance implements r d st = Done a st' →
  (∃ P cause, a = (VNil, Some (ErrDependency P cause))
              ∧ P ∈ params (ftype (Factory d)) ∧ P ≠ containerPtr)
  ∨ ((∃ l, calls st' = l ++ calls st ∧ ServiceType d ∈ l)
     ∧ (a.2 = None ∨ ∃ msg, a = (VNil, Some (Reported msg)))).
Proof.
  intros Hr H.
  apply createInstance_inv in H
    as [_ [(err & B & ->)|(args & st1 & inst & err & B & _ & R & -> & _)]].
  - left. apply bind_args_failure in B as (P & cause & -> & ? & ?). eauto.
  - right. split.
    + apply bind_args_ext in B; [|done]. apply run_body_ext in R; [|done].
      destruct B as [_ _ [l1 E1]]. destruct R as [_ _ [l2 E2]]. simpl in E2.
      exists (l2 ++ ServiceType d :: l1). split.
      * rewrite E2, E1. by rewrite <- app_assoc.
      * apply elem_of_app. right. by left.
    + case_decide; [|by left]. destruct err; [right; eauto|by left].
Qed.

Lemma calls_creation_state t d st : calls (creation_state t d st) = calls st.
Proof. unfold creation_state. by case_decide. Qed.

Lemma calls_creation_exit t d a st : calls (creation_exit t d a st) = calls st.
Proof. unfold creation_exit. case_decide; [|done]. by destruct a.2. Qed.

Lemma state_ext_creation_state_lookup t d st st1 :
  services st !! t = Some d →
  state_ext (creation_state t d st) st1 →
  ∃ d1, services st1 !! t = Some d1
        ∧ Factory d1 = Factory d ∧ ServiceType d1 = ServiceType d
        ∧ lifecycle d1 = lifecycle d
        ∧ (lifecycle d = Singleton → instance d1 = instance d)
        ∧ (lifecycle d = Transient → d1 = d).
Proof.
  intros L [S _ _]. specialize (S t). unfold creation_state in S.
  case_decide as LC.
  - rewrite lookup_update in S. case_decide; [|done]. rewrite L in S. simpl in S.
    destruct (services st1 !! t) as [d1|]; [|done].
    destruct S as [T1 F1 L1 M1 I1]. simpl in *.
    exists d1. split_and!; auto.
    + intros _. destruct I1 as [?|(_ & _ & ?)]; done.
    + congruence.
  - rewrite L in S. destruct (services st1 !! t) as [d1|]; [|done].
    destruct S as [T1 F1 L1 M1 I1].
    exists d1. split_and!; auto; [congruence|].
    intros _. destruct I1 as [I1|(_ & ? & _)]; [|congruence].
    destruct d, d1; simpl in *; congruence.
Qed.

Lemma creation_exit_lookup t d a st st1 :
  services st !! t = Some d →
  state_ext (creation_state t d st) st1 →
  ∃ d', services (creation_exit t d a st1) !! t = Some d'
        ∧ Factory d' = Factory d ∧ ServiceType d' = ServiceType d
        ∧ lifecycle d' = lifecycle d
        ∧ (lifecycle d = Singleton →
           mu d' = false
           ∧ instance d' = match a.2 with Some _ => instance d | None => a.1 end)
        ∧ (lifecycle d = Transient → d' = d).
Proof.
  intros L E.
  destruct (state_ext_creation_state_lookup t d st st1 L E)
    as (d1 & L1 & F1 & T1 & LC1 & I1 & D1).
  unfold creation_exit. case_decide as LC.
  - destruct a as [v [e|]]; cbn [fst snd]; rewrite !lookup_update;
      repeat (rewrite decide_True by done); rewrite L1;
      simpl; eexists; (split; [done|]); simpl; split_and!; auto; congruence.
  - exists d1. split_and!; auto; try done.
Qed.

(** A resolution that finds no cached instance either fails on a
    parameter of the factory, or calls the factory. *)
Lemma uncached_resolve_invokes fuel t d st a st' :
  services st !! t = Some d →
  lifecycle d = Transient ∨ instance d = VNil →
  resolveType implements fuel t st = Done a st' →
  (∃ P cause, a = (VNil, Some (ErrDependency P cause))
              ∧ P ∈ params (ftype (Factory d)) ∧ P ≠ containerPtr)
  ∨ ((∃ l, calls st' = l ++ calls st ∧ ServiceType d ∈ l)
     ∧ (a.2 = None ∨ ∃ msg, a = (VNil, Some (Reported msg)))).
Proof.
  intros L H R.
  apply (resolveType_creates_inv _ _ d) in R
    as (fuel' & a1 & st1 & -> & _ & C & -> & ->); [|done..].
  apply createInstance_outcome in C; [|apply resolveType_ext].
  rewrite calls_creation_exit. rewrite calls_creation_state in C.
  destruct C as [(P & cause & -> & ? & ?)|[Hl [E|(msg & ->)]]].
  - left. exists P, cause. by case_decide.
  - right. split; [done|]. left. case_decide; [|done]. by rewrite E.
  - right. split; [done|]. right. exists msg. by case_decide.
Qed.

(** C7: resolving a type that has no descriptor returns the
    not-registered error, whose text names the requested key, and changes
    nothing: [Has] answers false before the call and after it. *)
Theorem resolve_unregistered fuel tok sType0 st :
  TypeOf tok = Some sType0 →
  services st !! service_key sType0 = None →
  Has tok st = Done false st
  ∧ Resolve implements (S fuel) tok st
    = Done (VNil, Some (ErrNotRegistered (service_key sType0))) st
  ∧ Error (ErrNotRegistered (service_key sType0))
    = "service of type " +:+ type_string (service_key sType0) +:+ " not registered"
  ∧ (∀ a st', Resolve implements (S fuel) tok st = Done a st' →
       Has tok st' = Done false st').
Proof.
  intros T L.
  assert (Has tok st = Done false st) as H.
  { unfold Has. by rewrite T, L. }
  assert (Resolve implements (S fuel) tok st
          = Done (VNil, Some (ErrNotRegistered (service_key sType0))) st) as R.
  { unfold Resolve, Resolve_with. rewrite T. by apply resolveType_unregistered. }
  split_and!; auto. intros a st'. rewrite R. by intros [= _ <-].
Qed.

(** C9: after [Clear] the map is empty, [GetServiceTypes] returns the
    empty list and [Has] answers false for every typed token; the
    allocated addresses and the record of invocations, hence every
    instance handed out before, are untouched. *)
Theorem clear_empties_registry st :
  services (Clear st) = ∅
  ∧ GetServiceTypes (Clear st) = []
  ∧ (∀ tok, Has tok (Clear st)
            = match TypeOf tok with
              | Some _ => Done false (Clear st)
              | None => Panics
              end)
  ∧ next (Clear st) = next st
  ∧ calls (Clear st) = calls st.
Proof.
  split_and!.
  - reflexivity.
  - unfold GetServiceTypes, Clear. simpl. by rewrite map_to_list_empty.
  - intros tok. unfold Has. destruct (TypeOf tok); [|done]. simpl.
    by rewrite lookup_empty.
  - reflexivity.
  - reflexivity.
Qed.


Lemma bind_args_app r pre post : ∀ args st,
  bind_args r (pre ++ post) args st
  = bind (bind_args r pre args st) (fun a st' =>
      match a with
      | inl args' => bind_args r post args' st'
      | inr e => Done (inr e) st'
      end).
Proof.
  induction pre as [|argType pre IH]; intros args st; simpl; [done|].
  case_decide; [apply IH|].
  destruct (r argType st) as [[v [err|]] st1| | |]; simpl; auto.
Qed.

(** C2: in [createInstance], with the parameters before [P] bound to
    [args]: a parameter of type [*Container] is bound to the container
    itself, in the same state, without any resolution; any other [P] is
    resolved by [resolveType] and bound to the result; and when that
    resolution fails with [e], [Resolve] returns the dependency error that
    wraps [e] and names [P]. *)
Theorem createInstance_binds_parameters fuel tok sType0 d st pre P post args st1 :
  TypeOf tok = Some sType0 →
  services st !! service_key sType0 = Some d →
  lifecycle d = Transient ∨ (instance d = VNil ∧ mu d = false) →
  kind_of (ftype (Factory d)) = Func →
  params (ftype (Factory d)) = pre ++ P :: post →
  bind_args (resolveType implements fuel) pre []
    (creation_state (service_key sType0) d st) = Done (inl args) st1 →
  (P = containerPtr →
     bind_args (resolveType implements fuel) (pre ++ [P]) []
       (creation_state (service_key sType0) d st)
     = Done (inl (args ++ [VContainer])) st1)
  ∧ (P ≠ containerPtr → ∀ v st2,
       resolveType implements fuel P st1 = Done (v, None) st2 →
       bind_args (resolveType implements fuel) (pre ++ [P]) []
         (creation_state (service_key sType0) d st)
       = Done (inl (args ++ [v])) st2)
  ∧ (P ≠ containerPtr → ∀ v e st2,
       resolveType implements fuel P st1 = Done (v, Some e) st2 →
       Resolve implements (S fuel) tok st
       = Done (VNil, Some (ErrDependency P e))
           (creation_exit (service_key sType0) d
              (VNil, Some (ErrDependency P e)) st2)
       ∧ Unwrap (ErrDependency P e) = Some e
       ∧ Error (ErrDependency P e)
         = "failed to resolve dependency " +:+ type_string P +:+ ": " +:+ Error e).
Proof.
  intros T L H K Ps B. split_and!.
  - intros ->. rewrite bind_args_app, B. reflexivity.
  - intros N v st2 R. rewrite bind_args_app, B. cbn [bind bind_args].
    rewrite decide_False by done. by rewrite R.
  - intros N v e st2 R. split_and!; [|done..].
    unfold Resolve, Resolve_with. rewrite T.
    rewrite (resolveType_creates _ _ d) by done.
    unfold createInstance. rewrite decide_False by (by intros ?).
    rewrite Ps, bind_args_app, B. cbn [bind bind_args].
    rewrite decide_False by done. rewrite R. cbn [bind snd fst].
    by case_decide.
Qed.



Lemma state_ext_cached st st' t d :
  state_ext st st' → services st !! t = Some d → instance d ≠ VNil →
  ∃ d', services st' !! t = Some d' ∧ instance d' = instance d
        ∧ mu d' = mu d ∧ lifecycle d' = lifecycle d.
Proof.
  intros [S _ _] L I. specialize (S t). rewrite L in S.
  destruct (services st' !! t) as [d'|]; [|done].
  destruct S as [T1 F1 L1 M1 I1]. exists d'. split_and!; auto.
  by destruct I1 as [I1|(? & _)].
Qed.

(** C1 (as amended): for a singleton whose slot is empty, a [Resolve]
    that succeeds with a non-nil instance has called the factory and has
    stored the instance; from then on, whatever else is resolved in
    between, every [Resolve] of the token returns that instance and leaves
    the state, hence the record of invocations, as it is. *)
Theorem singleton_cached_after_first_success fuel tok sType0 d st v st1 :
  TypeOf tok = Some sType0 →
  services st !! service_key sType0 = Some d →
  lifecycle d = Singleton →
  instance d = VNil →
  Resolve implements fuel tok st = Done (v, None) st1 →
  v ≠ VNil →
  (∃ l, calls st1 = l ++ calls st ∧ ServiceType d ∈ l)
  ∧ (∃ d1, services st1 !! service_key sType0 = Some d1 ∧ instance d1 = v)
  ∧ (∀ st2, after_resolves st1 st2 →
       ∀ fuel', Resolve implements (S fuel') tok st2 = Done (v, None) st2).
Proof.
  intros T L LC I R V. unfold Resolve, Resolve_with in R. rewrite T in R.
  assert (∃ d1, services st1 !! service_key sType0 = Some d1
                ∧ instance d1 = v ∧ mu d1 = false ∧ lifecycle d1 = Singleton)
    as (d1 & L1 & I1 & M1 & LC1).
  { apply (resolveType_creates_inv _ _ d) in R
      as (fuel0 & a1 & st0 & -> & _ & C & E & ->); [|done|by right].
    rewrite decide_True in E by done.
    destruct (creation_exit_lookup (service_key sType0) d a1 st st0 L)
      as (d1 & L1 & _ & _ & LC1 & HS & _).
    { eapply createInstance_ext; [apply resolveType_ext|exact C]. }
    destruct (HS LC) as [M1 I1]. exists d1.
    destruct a1 as [v1 [e|]]; simpl in *; [done|].
    injection E as ->. split_and!; auto. congruence. }
  split_and!.
  - eapply uncached_resolve_invokes in R; [|exact L|by right].
    by destruct R as [(P & cause & [=] & _)|[Hl _]].
  - by exists d1.
  - intros st2 A fuel'. apply after_resolves_ext in A.
    destruct (state_ext_cached st1 st2 _ d1 A L1) as (d2 & L2 & I2 & M2 & LC2);
      [congruence|].
    unfold Resolve, Resolve_with. rewrite T.
    rewrite (resolveType_cached _ _ d2); [congruence|done|congruence..].
Qed.



End Resolution.

(** ** The types and factories of [container_test.go] *)

Definition TestInterface : rtype := Named KInterface "inject.TestInterface".
Definition TestImplementation : rtype := Named KStruct "inject.TestImplementation".
Definition TestService : rtype := Named KStruct "inject.TestService".
Definition TestRepository : rtype := Named KStruct "inject.TestRepository".
Definition string_type : rtype := Named KBasic "string".

(** The method sets of the test file: [GetValue] has a pointer receiver,
    so [*TestImplementation] implements [TestInterface]; an interface
    implements itself. *)
Definition test_implements (t i : rtype) : bool :=
  bool_decide (t = i ∧ kind_of i = Interface)
  || bool_decide (t = PtrTo TestImplementation ∧ i = TestInterface).

(** A typed nil pointer, the usual token: the nil [*T]. *)
Definition nil_ptr (t : rtype) : value := VDyn (PtrTo t) 0.

(** [func() *TestImplementation { return &TestImplementation{...} }] *)
Definition new_implementation : factory :=
  MkFactory (FuncOf [] [PtrTo TestImplementation])
    (fun _ => New (fun a => Return (VDyn (PtrTo TestImplementation) a) None)).

(** [func() TestInterface { return &TestImplementation{...} }] *)
Definition new_interface : factory :=
  MkFactory (FuncOf [] [TestInterface])
    (fun _ => New (fun a => Return (VDyn (PtrTo TestImplementation) a) None)).

(** The factory of [TestFactoryWithError]: results [*TestImplementation]
    and [error], body [return nil, errors.New("factory error")]. *)
Definition failing_factory : factory :=
  MkFactory (FuncOf [] [PtrTo TestImplementation; errorInterface])
    (fun _ => Return (VDyn (PtrTo TestImplementation) 0) (Some "factory error"%string)).

(** [func(dep TestInterface) *TestService { return &TestService{dependency: dep} }] *)
Definition new_service : factory :=
  MkFactory (FuncOf [TestInterface] [PtrTo TestService])
    (fun _ => New (fun a => Return (VDyn (PtrTo TestService) a) None)).

(** [func(c *Container) *TestRepository { ... }] *)
Definition new_repository : factory :=
  MkFactory (FuncOf [containerPtr] [PtrTo TestRepository])
    (fun _ => New (fun a => Return (VDyn (PtrTo TestRepository) a) None)).

(** [func(c *Container, dep TestInterface) *TestService]: the container
    first, then a dependency. *)
Definition new_service_with_container : factory :=
  MkFactory (FuncOf [containerPtr; TestInterface] [PtrTo TestService])
    (fun _ => New (fun a => Return (VDyn (PtrTo TestService) a) None)).

(** The string ["not a function"] passed as factory. *)
Definition not_a_function : factory :=
  MkFactory string_type (fun _ => Return VNil None).

(** [func() string { return "wrong type" }] *)
Definition string_factory : factory :=
  MkFactory (FuncOf [] [string_type]) (fun _ => Return (VDyn string_type 0) None).

(** [func() TestInterface { return nil }] *)
Definition nil_interface_factory : factory :=
  MkFactory (FuncOf [] [TestInterface]) (fun _ => Return VNil None).


(** The state a call leaves behind, for writing down scenarios. *)
Definition state_after {A} (o : outcome A) : state :=
  match o with Done _ st => st | _ => NewContainer end.

Definition registered (tok : value) (f : factory) (lc : Lifecycle) (st : state) : state :=
  state_after (Register test_implements tok (Some f) lc st).

Definition resolved (tok : value) (st : state) : state :=
  state_after (Resolve test_implements 3 tok st).

Definition descriptor_of (t : rtype) (f : factory) (lc : Lifecycle) : ServiceDescriptor :=
  MkDescriptor t f lc VNil false.

(** ** The claims on the scenarios of the test file *)

Definition tokImplementation : value := nil_ptr TestImplementation.
Definition tokInterface : value := nil_ptr TestInterface.
Definition tokService : value := nil_ptr TestService.

(** A singleton whose factory returns a nil interface, before and after
    two resolutions. *)
Definition nil_singleton_0 : state :=
  registered tokInterface nil_interface_factory Singleton NewContainer.
Definition nil_singleton_1 : state := resolved tokInterface nil_singleton_0.
Definition nil_singleton_2 : state := resolved tokInterface nil_singleton_1.

(** C1, counterexample: a singleton factory with result type
    [TestInterface] that returns nil.  The first [Resolve] succeeds (nil
    instance, nil error) after one call of the factory; the second
    [Resolve] calls the factory again. *)
Lemma singleton_nil_instance_reinvoked :
  Register test_implements tokInterface (Some nil_interface_factory) Singleton
    NewContainer = Done None nil_singleton_0
  ∧ Resolve test_implements 3 tokInterface nil_singleton_0
    = Done (VNil, None) nil_singleton_1
  ∧ calls nil_singleton_1 = [TestInterface]
  ∧ Resolve test_implements 3 tokInterface nil_singleton_1
    = Done (VNil, None) nil_singleton_2
  ∧ calls nil_singleton_2 = [TestInterface; TestInterface].
Proof. split_and!; vm_compute; reflexivity. Qed.

Definition singleton_0 : state :=
  registered tokImplementation new_implementation Singleton NewContainer.
Definition singleton_1 : state := resolved tokImplementation singleton_0.

Lemma singleton_cached_after_first_success_witness :
  (∃ l, calls singleton_1 = l ++ calls singleton_0 ∧ TestImplementation ∈ l)
  ∧ (∃ d1, services singleton_1 !! TestImplementation = Some d1
           ∧ instance d1 = VDyn (PtrTo TestImplementation) 1)
  ∧ (∀ st2, after_resolves test_implements singleton_1 st2 →
       ∀ fuel', Resolve test_implements (S fuel') tokImplementation st2
                = Done (VDyn (PtrTo TestImplementation) 1, None) st2).
Proof.
  apply (singleton_cached_after_first_success test_implements 3
           tokImplementation (PtrTo TestImplementation)
           (descriptor_of TestImplementation new_implementation Singleton)
           singleton_0 (VDyn (PtrTo TestImplementation) 1) singleton_1).
  - reflexivity.
  - vm_compute; reflexivity.
  - reflexivity.
  - reflexivity.
  - vm_compute; reflexivity.
  - discriminate.
Defined.

Definition service_0 : state :=
  registered tokService new_service_with_container Transient NewContainer.

(** [TestService] needs the container and a [TestInterface], which is
    not registered: the container is bound as it is, and the failure of
    the second parameter comes back wrapped. *)
Lemma createInstance_binds_parameters_witness :
  bind_args (resolveType test_implements 1) [containerPtr] [] service_0
  = Done (inl [VContainer]) service_0
  ∧ Resolve test_implements 2 tokService service_0
    = Done (VNil, Some (ErrDependency TestInterface (ErrNotRegistered TestInterface)))
        service_0
  ∧ Error (ErrDependency TestInterface (ErrNotRegistered TestInterface))
    = "failed to resolve dependency inject.TestInterface: service of type inject.TestInterface not registered"%string.
Proof.
  destruct (createInstance_binds_parameters test_implements 1 tokService
              (PtrTo TestService)
              (descriptor_of TestService new_service_with_container Transient)
              service_0 [containerPtr] TestInterface [] [VContainer] service_0)
    as (_ & _ & H).
  - reflexivity.
  - vm_compute; reflexivity.
  - left; reflexivity.
  - reflexivity.
  - reflexivity.
  - reflexivity.
  - destruct (H ltac:(discriminate) VNil (ErrNotRegistered TestInterface) service_0)
      as (R & _ & E); [reflexivity|].
    split_and!; [reflexivity|exact R|exact E].
Defined.

Definition failing_0 : state :=
  registered tokImplementation failing_factory Singleton NewContainer.
Definition failing_1 : state := resolved tokImplementation failing_0.






(** C6, counterexample: a nil factory is not a function, yet [Register]
    does not return the malformed-factory error: it panics. *)
Lemma register_nil_factory_panics :
  Register test_implements tokImplementation None Transient NewContainer = Panics.
Proof. reflexivity. Qed.

(** The scenario of [TestInvalidFactory]. *)
Lemma register_malformed_factory_witness :
  ∃ e st', malformed_error e
           ∧ Register test_implements tokImplementation (Some not_a_function)
               Transient NewContainer = Done (Some e) st'.
Proof.
  destruct (register_malformed_factory test_implements tokImplementation
              (PtrTo TestImplementation) not_a_function Transient NewContainer)
    as ([H _] & _); [reflexivity|].
  apply H. left. discriminate.
Defined.

(** The scenario of [TestInterfaceRegistration], and of
    [TestFactoryWithWrongReturnType] below. *)
Lemma register_type_compatibility_witness :
  ∃ st', Register test_implements tokInterface (Some new_interface) Transient
           NewContainer = Done None st'.
Proof.
  destruct (register_type_compatibility test_implements tokInterface
              (PtrTo TestInterface) new_interface Transient NewContainer)
    as (H & _ & _).
  - reflexivity.
  - split_and!; [reflexivity|by left|discriminate].
  - destruct (H ltac:(reflexivity)) as [[H1 _] _]. apply H1. reflexivity.
Defined.


(** The scenario of [TestUnregisteredService]. *)
Lemma resolve_unregistered_witness :
  Has tokImplementation NewContainer = Done false NewContainer
  ∧ Resolve test_implements 1 tokImplementation NewContainer
    = Done (VNil, Some (ErrNotRegistered TestImplementation)) NewContainer
  ∧ Error (ErrNotRegistered TestImplementation)
    = "service of type inject.TestImplementation not registered"%string
  ∧ (∀ a st', Resolve test_implements 1 tokImplementation NewContainer = Done a st' →
       Has tokImplementation st' = Done false st').
Proof.
  apply (resolve_unregistered test_implements 0 tokImplementation
           (PtrTo TestImplementation) NewContainer).
  - reflexivity.
  - reflexivity.
Defined.


(** ** Further properties of [container.go] *)

Section Properties.

Variable implements : rtype -> rtype -> bool.

Lemma elem_of_GetServiceTypes t st :
  t ∈ GetServiceTypes st ↔ is_Some (services st !! t).
Proof.
  unfold GetServiceTypes. rewrite list_elem_of_fmap. split.
  - intros ([k d] & -> & H). apply elem_of_map_to_list in H. by exists d.
  - intros [d H]. exists (t, d). split; [done|]. by apply elem_of_map_to_list.
Qed.

(** X1: [GetServiceTypes] lists exactly the keys for which [Has] answers true,
    each once. *)
Theorem GetServiceTypes_lists_what_Has_finds st :
  NoDup (GetServiceTypes st)
  ∧ length (GetServiceTypes st) = size (services st)
  ∧ (∀ ty data,
       Has (VDyn ty data) st
       = Done (bool_decide (service_key ty ∈ GetServiceTypes st)) st).
Proof.
  split_and!.
  - apply NoDup_fst_map_to_list.
  - unfold GetServiceTypes. rewrite length_fmap. apply length_map_to_list.
  - intros ty data. unfold Has. simpl. f_equal.
    apply bool_decide_ext. symmetry. apply elem_of_GetServiceTypes.
Qed.

Lemma state_ext_keys st st' :
  state_ext st st' → GetServiceTypes st' ≡ₚ GetServiceTypes st.
Proof.
  intros [S _ _]. apply NoDup_Permutation.
  - apply NoDup_fst_map_to_list.
  - apply NoDup_fst_map_to_list.
  - intros t. rewrite !elem_of_GetServiceTypes. specialize (S t).
    destruct (services st !! t), (services st' !! t); simpl in S; done.
Qed.

(** X2: a [Resolve] that returns has neither added nor removed a key, nor
    changed the factory, the lifecycle or the lock of any descriptor; an
    instance that was stored is still there; and [Has] and
    [GetServiceTypes] answer as before. *)
Theorem resolve_keeps_registrations fuel tok st a st' :
  Resolve implements fuel tok st = Done a st' →
  (∀ t, match services st !! t, services st' !! t with
        | Some d, Some d' =>
            ServiceType d' = ServiceType d ∧ Factory d' = Factory d
            ∧ lifecycle d' = lifecycle d ∧ mu d' = mu d
            ∧ (instance d ≠ VNil ∨ lifecycle d = Transient →
               instance d' = instance d)
        | None, None => True
        | _, _ => False
        end)
  ∧ GetServiceTypes st' ≡ₚ GetServiceTypes st
  ∧ (∀ tok' b, Has tok' st = Done b st → Has tok' st' = Done b st')
  ∧ next st ≤ next st'
  ∧ calls st `suffix_of` calls st'.
Proof.
  intros R. apply Resolve_ext in R. split_and!.
  - intros t. destruct R as [S _ _]. specialize (S t).
    destruct (services st !! t) as [d|], (services st' !! t) as [d'|];
      simpl in S; try done.
    destruct S as [T1 F1 L1 M1 I1]. split_and!; auto.
    intros H. destruct I1 as [I1|(N & LC & _)]; [done|].
    destruct H as [H|H]; [done|congruence].
  - by apply state_ext_keys.
  - intros tok' b. unfold Has. destruct (TypeOf tok') as [ty|]; [|done].
    intros [= <-]. f_equal. apply bool_decide_ext.
    destruct R as [S _ _]. specialize (S (service_key ty)).
    destruct (services st !! _), (services st' !! _); simpl in S; done.
  - by destruct R.
  - by destruct R.
Qed.

(** The errors [Resolve] can return: not-registered, an error reported by
    a factory, or a dependency error around one of these. *)
Fixpoint resolution_error (e : error) : Prop :=
  match e with
  | ErrNotRegistered _ | Reported _ => True
  | ErrDependency _ cause => resolution_error cause
  | _ => False
  end.


Definition well_behaved (r : resolver) : Prop :=
  ∀ t st v e st', r t st = Done (v, Some e) st' → v = VNil ∧ resolution_error e.

Lemma bind_args_well_behaved r argTypes : well_behaved r →
  ∀ args st e st', bind_args r argTypes args st = Done (inr e) st' →
  resolution_error e.
Proof.
  intros Hr. induction argTypes as [|argType rest IH]; simpl;
    intros args st e st' H; [done|].
  case_decide; [by eapply IH|].
  destruct (r argType st) as [[v [err|]] st1| | |] eqn:E; try done; simpl in H.
  - injection H as <- <-. simpl. by apply Hr in E as [_ ?].
  - by eapply IH.
Qed.

Lemma createInstance_well_behaved r d st v e st' :
  well_behaved r →
  createInstance implements r d st = Done (v, Some e) st' →
  v = VNil ∧ resolution_error e.
Proof.
  intros Hr H. apply createInstance_inv in H
    as [_ [(err & B & [= -> ->])|(args & st1 & inst & err & _ & _ & _ & E & _)]].
  - split; [done|]. by eapply bind_args_well_behaved.
  - case_decide; [|done]. destruct err; [|done]. by injection E as -> ->.
Qed.

Lemma resolveType_well_behaved fuel : well_behaved (resolveType implements fuel).
Proof.
  induction fuel as [|fuel IH]; intros t st v e st' H; simpl in H; [done|].
  destruct (services st !! t) as [d|] eqn:L.
  - case_decide as LC.
    + destruct (mu d); [done|]. case_decide; [done|].
      destruct (createInstance _ _ _ _) as [[v1 [e1|]] st1| | |] eqn:C;
        try done; simpl in H.
      injection H as <- <- <-. split; [done|].
      by apply createInstance_well_behaved in C as [_ ?].
    + by eapply createInstance_well_behaved.
  - by injection H as <- <- <-.
Qed.


(** X4: a singleton resolution that fails, for whatever reason, leaves the
    slot empty and the lock released: the next [Resolve] tries again. *)
Theorem failed_singleton_resolve_retriable fuel tok sType0 d st v e st' :
  TypeOf tok = Some sType0 →
  services st !! service_key sType0 = Some d →
  lifecycle d = Singleton →
  instance d = VNil →
  Resolve implements fuel tok st = Done (v, Some e) st' →
  ∃ d', services st' !! service_key sType0 = Some d'
        ∧ instance d' = VNil ∧ mu d' = false
        ∧ Factory d' = Factory d ∧ lifecycle d' = Singleton.
Proof.
  intros T L LC I R. unfold Resolve, Resolve_with in R. rewrite T in R.
  apply (resolveType_creates_inv _ _ _ d) in R
    as (fuel0 & a1 & st0 & -> & _ & C & E & ->); [|done|by right].
  rewrite decide_True in E by done.
  destruct (creation_exit_lookup (service_key sType0) d a1 st st0 L)
    as (d' & L' & F' & _ & LC' & HS & _).
  { eapply createInstance_ext; [apply resolveType_ext|exact C]. }
  destruct (HS LC) as [M' I']. exists d'.
  destruct a1 as [v1 [e1|]]; simpl in *; [|done].
  split_and!; auto; congruence.
Qed.





(** X8: a token of type [T] and a token of type [*T] stand for the same
    registration; a token of type [**T] stands for another one, [*T]. *)
Theorem token_and_pointer_token_share_key T x y f lc fuel st :
  kind_of T ≠ Ptr →
  Register implements (VDyn T x) f lc st
  = Register implements (VDyn (PtrTo T) y) f lc st
  ∧ Has (VDyn T x) st = Has (VDyn (PtrTo T) y) st
  ∧ Resolve implements fuel (VDyn T x) st
    = Resolve implements fuel (VDyn (PtrTo T) y) st
  ∧ Has (VDyn (PtrTo (PtrTo T)) y) st
    = Done (bool_decide (is_Some (services st !! PtrTo T))) st.
Proof.
  intros K.
  assert (service_key T = service_key (PtrTo T)) as E.
  { rewrite service_key_ptr. by apply service_key_other. }
  unfold Register, Has, Resolve, Resolve_with. simpl TypeOf. cbv beta iota.
  rewrite E. done.
Qed.


(** X10: [reflect.Value.Call] checks the arguments before it calls: when the
    single dependency of a factory resolves to nil, or to a value whose
    type is not assignable to the parameter, [Resolve] panics instead of
    returning an error. *)
Theorem unassignable_dependency_panics fuel tok sType0 d st P v st1 :
  TypeOf tok = Some sType0 →
  services st !! service_key sType0 = Some d →
  lifecycle d = Transient ∨ (instance d = VNil ∧ mu d = false) →
  kind_of (ftype (Factory d)) = Func →
  params (ftype (Factory d)) = [P] →
  P ≠ containerPtr →
  resolveType implements fuel P (creation_state (service_key sType0) d st)
  = Done (v, None) st1 →
  assignable implements v P = false →
  Resolve implements (S fuel) tok st = Panics.
Proof.
  intros Tk L H K Ps N R A.
  unfold Resolve, Resolve_with. rewrite Tk.
  rewrite (resolveType_creates _ _ _ d) by done.
  unfold createInstance. rewrite decide_False by (by intros ?).
  rewrite Ps. cbn [bind_args]. rewrite decide_False by done.
  rewrite R. cbn [bind fst snd bind_args app args_assignable].
  by rewrite A.
Qed.

(** X11: a factory that asks the container it was handed for its own
    singleton blocks as well: the [Resolve] inside the factory waits for
    the lock that the [Resolve] outside holds. *)
Theorem callback_to_own_singleton_deadlocks fuel tok sType0 d st k :
  TypeOf tok = Some sType0 →
  services st !! service_key sType0 = Some d →
  lifecycle d = Singleton →
  instance d = VNil → mu d = false →
  kind_of (ftype (Factory d)) = Func →
  params (ftype (Factory d)) = [containerPtr] →
  (∀ args, fcall (Factory d) args = CallResolve tok k) →
  Resolve implements (S (S fuel)) tok st = Deadlocks.
Proof.
  intros T L LC I M K Ps F.
  unfold Resolve, Resolve_with. rewrite T.
  rewrite (resolveType_creates _ _ _ d) by auto.
  unfold createInstance. rewrite decide_False by (by intros ?).
  rewrite Ps. cbn [bind_args]. rewrite decide_True by done.
  cbn [bind_args bind app args_assignable assignable TypeOf].
  rewrite bool_decide_eq_true_2 by done. cbn [orb andb negb].
  rewrite F. cbn [run_body]. unfold Resolve_with. rewrite T.
  assert (resolveType implements (S fuel) (service_key sType0)
            (record_call (ServiceType d)
               (creation_state (service_key sType0) d st)) = Deadlocks) as ->;
    [|done].
  simpl. unfold creation_state. rewrite decide_True by done.
  rewrite lookup_update, decide_True, L by done. simpl.
  by rewrite decide_True.
Qed.

End Properties.

(** ** The typed helpers and [RegisterFunc] *)

Section Helpers.

Variable implements : rtype -> rtype -> bool.

(** [var zero T]. *)
Definition zero_value (T : rtype) : value :=
  if decide (kind_of T = Interface) then VNil else VDyn T 0.

(** The type assertion [result.(T)]: for an interface [T] the dynamic type
    must implement it, for any other [T] it must be [T]; a nil interface
    never passes.  A failed assertion panics. *)
Definition type_assertion (result : value) (T : rtype) : bool :=
  match TypeOf result with
  | None => false
  | Some t =>
      if decide (kind_of T = Interface) then implements t T
      else bool_decide (t = T)
  end.

(** [MustResolve[T]]. *)
Definition MustResolve (T : rtype) (fuel : nat) (st : state) : outcome value :=
  bind (Resolve implements fuel (nil_ptr T) st) (fun r st' =>
    match r.2 with
    | Some _ => Panics
    | None => if type_assertion r.1 T then Done r.1 st' else Panics
    end).

(** [TryResolve[T]]. *)
Definition TryResolve (T : rtype) (fuel : nat) (st : state)
    : outcome (value * bool) :=
  bind (Resolve implements fuel (nil_ptr T) st) (fun r st' =>
    match r.2 with
    | Some _ => Done (zero_value T, false) st'
    | None => if type_assertion r.1 T then Done (r.1, true) st' else Panics
    end).

(** [RegisterInterface[TInterface, TImplementation]].  What it registers
    is a closure of type [func(c *Container) TInterface] around the given
    factory; [wrapper] is the body of that closure (the call of the
    factory followed by the assertion of its result to [TInterface]). *)
Definition RegisterInterface (TInterface TImplementation : rtype)
    (wrapper : list value -> body) (lc : Lifecycle) (st : state)
    : outcome (option error) :=
  Register implements (nil_ptr TInterface)
    (Some (MkFactory (FuncOf [containerPtr] [TInterface]) wrapper)) lc st.

Definition RegisterSingletonInterface (TInterface TImplementation : rtype)
    (wrapper : list value -> body) (st : state) : outcome (option error) :=
  RegisterInterface TInterface TImplementation wrapper Singleton st.

Definition RegisterTransientInterface (TInterface TImplementation : rtype)
    (wrapper : list value -> body) (st : state) : outcome (option error) :=
  RegisterInterface TInterface TImplementation wrapper Transient st.

(** [RegisterType[T]]: the factory has type [func(c *Container) T]. *)
Definition RegisterType (T : rtype) (factory : list value -> body)
    (lc : Lifecycle) (st : state) : outcome (option error) :=
  Register implements (nil_ptr T)
    (Some (MkFactory (FuncOf [containerPtr] [T]) factory)) lc st.

Definition RegisterSingletonType (T : rtype) (factory : list value -> body)
    (st : state) : outcome (option error) :=
  RegisterType T factory Singleton st.

Definition RegisterTransientType (T : rtype) (factory : list value -> body)
    (st : state) : outcome (option error) :=
  RegisterType T factory Transient st.

(** [RegisterValue[T]]: a singleton whose factory, of type [func() T],
    returns the value. *)
Definition RegisterValue (T : rtype) (v : value) (st : state)
    : outcome (option error) :=
  RegisterSingleton implements (nil_ptr T)
    (Some (MkFactory (FuncOf [] [T]) (fun _ => Return v None))) st.

(** The errors of [RegisterFunc]: its own two, or the one [Register]
    returned. *)
Inductive func_error :=
| ErrFuncNotFunc
| ErrNoResult
| ErrRegister (e : error).

Definition FuncError (e : func_error) : string :=
  match e with
  | ErrFuncNotFunc => "factory must be a function"
  | ErrNoResult => "factory function must return at least one value"
  | ErrRegister e => Error e
  end.

(** [RegisterFunc].  [reflect.New(returnType)] allocates a value of the
    result type; the pointer to it is the token handed to [Register].
    Both branches of the test on the kind make the same call. *)
Definition RegisterFunc (factory : option factory) (lc : Lifecycle)
    (st : state) : outcome (option func_error) :=
  match factory with
  | None => Panics
  | Some f =>
      let factoryType := ftype f in
      if decide (kind_of factoryType ≠ Func) then Done (Some ErrFuncNotFunc) st
      else if decide (NumOut factoryType = 0) then Done (Some ErrNoResult) st
      else
        let returnType := Out factoryType 0 in
        if decide (kind_of returnType = Interface) then
          bind (Register implements (VDyn (PtrTo returnType) (next st))
                  factory lc (fresh st))
            (fun e st' => Done (ErrRegister <$> e) st')
        else
          bind (Register implements (VDyn (PtrTo returnType) (next st))
                  factory lc (fresh st))
            (fun e st' => Done (ErrRegister <$> e) st')
  end.

Lemma resolve_error_nil fuel tok st v e st' :
  Resolve implements fuel tok st = Done (v, Some e) st' → v = VNil.
Proof.
  unfold Resolve, Resolve_with. destruct (TypeOf tok); [|done].
  intros H. by apply resolveType_well_behaved in H as [-> _].
Qed.

(** An interface type implements itself. *)
Definition reflexive_on_interfaces : Prop :=
  ∀ T, kind_of T = Interface → implements T T = true.

Lemma Register_same_type tok T f lc st :
  reflexive_on_interfaces →
  TypeOf tok = Some (PtrTo T) →
  kind_of (ftype f) = Func →
  results (ftype f) = [T] →
  Register implements tok (Some f) lc st
  = Done None (set_services (<[T := MkDescriptor T f lc VNil false]> (services st)) st).
Proof.
  intros Hi Tk K Rs.
  destruct (Register_cases implements tok (PtrTo T) f lc st Tk)
    as [(e & C & _)|[(e & _ & C & _)|(_ & _ & R)]].
  - assert (well_formed implements (ftype f)) as W.
    { unfold well_formed, NumOut. rewrite Rs. simpl. split_and!; auto. lia. }
    apply check_factory_None in W. congruence.
  - exfalso. unfold Out in C. rewrite Rs, service_key_ptr in C. simpl in C.
    apply check_compatible_Some in C
      as [(KI & I & _)|(_ & N & _)]; [|done].
    rewrite (Hi T KI) in I. done.
  - by rewrite service_key_ptr in R.
Qed.

(** X12: [RegisterType[T]] cannot fail: the token and the factory's result are
    both [T], so the descriptor is stored under [T] with the given
    factory, whatever [T] is. *)
Theorem RegisterType_always_succeeds T factory lc st :
  reflexive_on_interfaces →
  RegisterType T factory lc st
  = Done None
      (set_services
         (<[T := MkDescriptor T (MkFactory (FuncOf [containerPtr] [T]) factory)
                   lc VNil false]> (services st)) st)
  ∧ ∀ tok', TypeOf tok' = Some (PtrTo T) →
      ∀ st', RegisterType T factory lc st = Done None st' →
             Has tok' st' = Done true st'.
Proof.
  intros Hi.
  assert (RegisterType T factory lc st
          = Done None
              (set_services
                 (<[T := MkDescriptor T
                           (MkFactory (FuncOf [containerPtr] [T]) factory)
                           lc VNil false]> (services st)) st)) as E.
  { unfold RegisterType. by apply Register_same_type. }
  split; [exact E|].
  intros tok' Tk st'. rewrite E. intros [= <-].
  unfold Has. rewrite Tk, service_key_ptr. simpl. by rewrite lookup_insert_eq.
Qed.

(** X13: [RegisterInterface] does not look at the implementation type at all:
    for every [TImplementation], implementing [TInterface] or not, it
    stores the closure under [TInterface] and returns no error.  A wrong
    implementation shows only when the closure runs. *)
Theorem RegisterInterface_does_not_check_implementation
    TInterface TImplementation wrapper lc st :
  reflexive_on_interfaces →
  RegisterInterface TInterface TImplementation wrapper lc st
  = Done None
      (set_services
         (<[TInterface :=
              MkDescriptor TInterface
                (MkFactory (FuncOf [containerPtr] [TInterface]) wrapper)
                lc VNil false]> (services st)) st).
Proof.
  intros Hi. unfold RegisterInterface. by apply Register_same_type.
Qed.

(** X14: [RegisterValue] and back: after it, the first [Resolve] calls the
    stored closure once and returns the value, every later [Resolve]
    returns it from the cache, and [TryResolve[T]] hands it out when it is
    of type [T]. *)
Theorem RegisterValue_round_trip T v st fuel :
  reflexive_on_interfaces →
  v ≠ VNil →
  ∃ st1 st2,
    RegisterValue T v st = Done None st1
    ∧ Resolve implements (S fuel) (nil_ptr T) st1 = Done (v, None) st2
    ∧ calls st2 = T :: calls st
    ∧ (∀ fuel', Resolve implements (S fuel') (nil_ptr T) st2 = Done (v, None) st2)
    ∧ (type_assertion v T = true →
       TryResolve T (S fuel) st1 = Done (v, true) st2
       ∧ MustResolve T (S fuel) st1 = Done v st2).
Proof.
  intros Hi V.
  set (f := MkFactory (FuncOf [] [T]) (fun _ => Return v None)).
  set (d := MkDescriptor T f Singleton VNil false).
  set (st1 := set_services (<[T := d]> (services st)) st).
  set (st2 := creation_exit T d (v, None)
                (record_call T (creation_state T d st1))).
  assert (RegisterValue T v st = Done None st1) as R.
  { unfold RegisterValue, RegisterSingleton. by apply Register_same_type. }
  assert (Resolve implements (S fuel) (nil_ptr T) st1 = Done (v, None) st2) as R1.
  { unfold Resolve, Resolve_with. simpl TypeOf. cbv beta iota.
    rewrite service_key_ptr.
    rewrite (resolveType_creates _ _ _ d);
      [|by simpl; rewrite lookup_insert_eq|by right].
    reflexivity. }
  assert (services st2 !! T = Some (set_mu false (set_instance v (set_mu true d))))
    as L2.
  { unfold st2, creation_exit, creation_state. simpl.
    rewrite !lookup_alter_eq. simpl. by rewrite lookup_insert_eq. }
  exists st1, st2. split_and!; auto.
  - intros fuel'. unfold Resolve, Resolve_with. simpl TypeOf. cbv beta iota.
    rewrite service_key_ptr.
    by rewrite (resolveType_cached _ _ _ _ _ L2).
  - intros A. unfold TryResolve, MustResolve. rewrite R1. simpl.
    by rewrite A.
Qed.

(** X15: [RegisterFunc] files the factory under its first result type exactly
    as declared: no pointer is taken off.  A factory that returns [*T] is
    stored under [*T], not under the [T] that [Register] with the usual
    token of type [*T] would use. *)
Theorem RegisterFunc_key f lc st st' :
  RegisterFunc (Some f) lc st = Done None st' →
  services st' !! Out (ftype f) 0
  = Some (MkDescriptor (Out (ftype f) 0) f lc VNil false)
  ∧ (∀ t, t ≠ Out (ftype f) 0 → services st' !! t = services st !! t)
  ∧ (∀ data, Has (VDyn (PtrTo (Out (ftype f) 0)) data) st' = Done true st')
  ∧ calls st' = calls st.
Proof.
  unfold RegisterFunc. intros R.
  case_decide; [done|]. case_decide; [done|].
  assert (Register implements (VDyn (PtrTo (Out (ftype f) 0)) (next st))
            (Some f) lc (fresh st) = Done None st') as R'.
  { case_decide;
      destruct (Register _ _ _ _ _) as [[e|] st1| | |]; simpl in R; try done;
      by injection R as <-. }
  clear R.
  destruct (Register_cases implements (VDyn (PtrTo (Out (ftype f) 0)) (next st))
              (PtrTo (Out (ftype f) 0)) f lc (fresh st) eq_refl)
    as [(e & _ & R)|[(e & _ & _ & R)|(_ & _ & R)]]; try congruence.
  rewrite R in R'. injection R' as <-. rewrite service_key_ptr. simpl.
  split_and!; auto.
  - apply lookup_insert_eq.
  - intros t N. by apply lookup_insert_ne.
  - intros data. unfold Has. simpl. rewrite service_key_ptr.
    by rewrite lookup_insert_eq.
Qed.

(** X16: the failures of [RegisterFunc]: a nil factory panics; a value that is
    not a function and a function without results are refused by
    [RegisterFunc] itself, with the container untouched; a function with
    three or more results passes these checks and is refused by
    [Register]. *)
Theorem RegisterFunc_failures f lc st :
  RegisterFunc None lc st = Panics
  ∧ (kind_of (ftype f) ≠ Func →
     RegisterFunc (Some f) lc st = Done (Some ErrFuncNotFunc) st)
  ∧ (kind_of (ftype f) = Func → NumOut (ftype f) = 0 →
     RegisterFunc (Some f) lc st = Done (Some ErrNoResult) st)
  ∧ (kind_of (ftype f) = Func → 3 ≤ NumOut (ftype f) →
     RegisterFunc (Some f) lc st = Done (Some (ErrRegister ErrArity)) (fresh st)).
Proof.
  split_and!.
  - done.
  - intros K. unfold RegisterFunc. by rewrite decide_True.
  - intros K N. unfold RegisterFunc. rewrite decide_False by (by intros ?).
    by rewrite decide_True.
  - intros K N. unfold RegisterFunc. rewrite decide_False by (by intros ?).
    rewrite decide_False by lia.
    assert (Register implements (VDyn (PtrTo (Out (ftype f) 0)) (next st))
              (Some f) lc (fresh st) = Done (Some ErrArity) (fresh st)) as ->.
    { unfold Register. simpl TypeOf. cbv beta iota.
      unfold check_factory. rewrite decide_False by (by intros ?).
      rewrite decide_True by lia. done. }
    by case_decide.
Qed.

(** X17: [MustResolve] returns exactly when [TryResolve] returns true, with
    the same value and state, and that value has passed the assertion to
    [T]; where [TryResolve] returns false it returns the zero value of
    [T], and [MustResolve] panics. *)
Theorem MustResolve_and_TryResolve T fuel st :
  (∀ v st', MustResolve T fuel st = Done v st'
            ↔ TryResolve T fuel st = Done (v, true) st')
  ∧ (∀ v st', TryResolve T fuel st = Done (v, true) st' →
       type_assertion v T = true)
  ∧ (∀ z st', TryResolve T fuel st = Done (z, false) st' →
       z = zero_value T
       ∧ MustResolve T fuel st = Panics
       ∧ ∃ e, Resolve implements fuel (nil_ptr T) st = Done (VNil, Some e) st').
Proof.
  unfold MustResolve, TryResolve.
  destruct (Resolve implements fuel (nil_ptr T) st) as [[r [e|]] st1| | |] eqn:R;
    simpl; split_and!; try done.
  - intros z st' [= <- <-]. split_and!; auto.
    apply resolve_error_nil in R. subst. by exists e.
  - intros v st'. destruct (type_assertion r T); [|done].
    split; by intros [= <- <-].
  - intros v st'. destruct (type_assertion r T) eqn:A; [|done].
    by intros [= <- <-].
  - intros z st'. by destruct (type_assertion r T).
Qed.


End Helpers.

(** ** Sequences of operations *)

Section Sequences.

Variable implements : rtype -> rtype -> bool.

Lemma register_stores_descriptor_lookup tok f lc st st' :
  Register implements tok f lc st = Done None st' →
  ∃ sType0, TypeOf tok = Some sType0
    ∧ is_Some (services st' !! service_key sType0)
    ∧ (∀ t, t ≠ service_key sType0 → services st' !! t = services st !! t).
Proof.
  intros R. unfold Register in R.
  destruct (TypeOf tok) as [sType0|] eqn:T; [|done].
  destruct f as [f|]; [|done].
  destruct (check_factory implements (ftype f)); [done|].
  destruct (check_compatible implements _ _); [done|].
  injection R as <-. exists sType0. simpl. split_and!; auto.
  - by rewrite lookup_insert_eq.
  - intros t N. by apply lookup_insert_ne.
Qed.

(** X19: a successful [Register] adds its key to what [GetServiceTypes] lists
    when the key is new, and leaves the listing as it is when the key was
    there: one entry per key, however often it is registered. *)
Theorem register_lists_key tok f lc st st' :
  Register implements tok f lc st = Done None st' →
  ∃ sType0,
    TypeOf tok = Some sType0
    ∧ (is_Some (services st !! service_key sType0) →
       GetServiceTypes st' ≡ₚ GetServiceTypes st)
    ∧ (services st !! service_key sType0 = None →
       GetServiceTypes st' ≡ₚ service_key sType0 :: GetServiceTypes st).
Proof.
  intros R.
  apply register_stores_descriptor_lookup in R as (sType0 & T & L & O).
  exists sType0. split; [done|].
  assert (∀ t, t ∈ GetServiceTypes st'
               ↔ t = service_key sType0 ∨ t ∈ GetServiceTypes st) as M.
  { intros t. rewrite !elem_of_GetServiceTypes.
    destruct (decide (t = service_key sType0)) as [->|N].
    - split; [by left|by intros _].
    - rewrite (O t N). split; [by right|by intros [?|?]]. }
  split.
  - intros I. apply NoDup_Permutation; try apply NoDup_fst_map_to_list.
    intros t. rewrite M. split; [|by right].
    intros [->|?]; [|done]. by apply elem_of_GetServiceTypes.
  - intros N. apply NoDup_Permutation.
    + apply NoDup_fst_map_to_list.
    + apply NoDup_cons. split; [|apply NoDup_fst_map_to_list].
      rewrite elem_of_GetServiceTypes, N. by intros [? ?].
    + intros t. rewrite M. by rewrite elem_of_cons.
Qed.

(** X20: after [Clear] every [Resolve] of a typed token answers not
    registered, whatever had been registered or cached before. *)
Theorem resolve_after_clear fuel ty data st :
  Resolve implements (S fuel) (VDyn ty data) (Clear st)
  = Done (VNil, Some (ErrNotRegistered (service_key ty))) (Clear st).
Proof.
  unfold Resolve, Resolve_with. simpl TypeOf. cbv beta iota.
  apply resolveType_unregistered. apply lookup_empty.
Qed.

(** The states a program can bring a container into through the calls of
    the package that return. *)
Inductive reachable : state → Prop :=
| reach_new : reachable NewContainer
| reach_Register st tok f lc e st' :
    reachable st → Register implements tok f lc st = Done e st' → reachable st'
| reach_RegisterFunc st f lc e st' :
    reachable st → RegisterFunc implements f lc st = Done e st' → reachable st'
| reach_Clear st : reachable st → reachable (Clear st)
| reach_Resolve st fuel tok a st' :
    reachable st → Resolve implements fuel tok st = Done a st' → reachable st'.

(** What holds of every descriptor between two calls. *)
Definition descriptor_ok (t : rtype) (d : ServiceDescriptor) : Prop :=
  ServiceType d = t
  ∧ mu d = false
  ∧ well_formed implements (ftype (Factory d))
  ∧ check_compatible implements (Out (ftype (Factory d)) 0) t = None
  ∧ (lifecycle d = Transient → instance d = VNil).

Definition container_ok (st : state) : Prop :=
  ∀ t d, services st !! t = Some d → descriptor_ok t d.

Lemma Register_ok tok f lc st e st' :
  container_ok st → Register implements tok f lc st = Done e st' →
  container_ok st'.
Proof.
  intros Ok R. unfold Register in R.
  destruct (TypeOf tok) as [sType0|] eqn:T; [|done].
  destruct f as [f|]; [|done].
  destruct (check_factory implements (ftype f)) eqn:C;
    [by injection R as <- <-|].
  destruct (check_compatible implements _ _) eqn:K;
    [by injection R as <- <-|].
  injection R as <- <-. intros t d. simpl.
  destruct (decide (t = service_key sType0)) as [->|N].
  - rewrite lookup_insert_eq. intros [= <-]. split_and!; try done.
    by apply check_factory_None.
  - rewrite lookup_insert_ne by done. apply Ok.
Qed.

Lemma state_ext_ok st st' : state_ext st st' → container_ok st → container_ok st'.
Proof.
  intros [S _ _] Ok t d' L'. specialize (S t). rewrite L' in S.
  destruct (services st !! t) as [d|] eqn:L; [|done].
  destruct S as [T1 F1 L1 M1 I1].
  destruct (Ok t d L) as (T0 & M0 & W0 & C0 & I0).
  split_and!; try congruence.
  intros LC. destruct I1 as [->|(_ & ? & _)]; [|congruence].
  apply I0. congruence.
Qed.

(** X21: between calls, every descriptor of the container is filed under its
    own [ServiceType], is unlocked, carries a factory that passed both
    checks of [Register] for that type, and holds no instance if it is
    transient. *)
Theorem reachable_container_ok st :
  reachable st → container_ok st.
Proof.
  induction 1 as [|st tok f lc e st' _ IH R|st f lc e st' _ IH R
                  |st _ IH|st fuel tok a st' _ IH R].
  - intros t d L. simpl in L. by rewrite lookup_empty in L.
  - by eapply Register_ok.
  - unfold RegisterFunc in R. destruct f as [f|]; [|done].
    case_decide; [by injection R as <- <-|].
    case_decide; [by injection R as <- <-|].
    assert (container_ok (fresh st)) as Ok by exact IH.
    case_decide;
      destruct (Register _ _ _ _ _) as [e1 st1| | |] eqn:R1; try done;
      simpl in R; injection R as <- <-; by eapply Register_ok.
  - intros t d L. simpl in L. by rewrite lookup_empty in L.
  - eapply state_ext_ok; [|exact IH]. eapply Resolve_ext, R.
Qed.

End Sequences.

(** ** The further properties on the scenarios of the test file *)

Lemma test_implements_reflexive : reflexive_on_interfaces test_implements.
Proof.
  intros T K. unfold test_implements.
  rewrite bool_decide_eq_true_2; [done|]. by split.
Qed.

Lemma resolve_keeps_registrations_witness :
  GetServiceTypes singleton_1 ≡ₚ GetServiceTypes singleton_0
  ∧ next singleton_0 ≤ next singleton_1.
Proof.
  destruct (resolve_keeps_registrations test_implements 3 tokImplementation
              singleton_0 (VDyn (PtrTo TestImplementation) 1, None) singleton_1)
    as (_ & H & _ & N & _).
  - vm_compute; reflexivity.
  - split; [exact H|exact N].
Defined.


Lemma failed_singleton_resolve_retriable_witness :
  ∃ d', services failing_1 !! TestImplementation = Some d'
        ∧ instance d' = VNil ∧ mu d' = false
        ∧ Factory d' = failing_factory ∧ lifecycle d' = Singleton.
Proof.
  apply (failed_singleton_resolve_retriable test_implements 3 tokImplementation
           (PtrTo TestImplementation)
           (descriptor_of TestImplementation failing_factory Singleton)
           failing_0 VNil (Reported "factory error") failing_1).
  - reflexivity.
  - vm_compute; reflexivity.
  - reflexivity.
  - reflexivity.
  - vm_compute; reflexivity.
Defined.


(** [func(c *Container) *TestService] whose body calls
    [c.Resolve] with the token of [TestService]. *)
Definition self_resolving_service : factory :=
  MkFactory (FuncOf [containerPtr] [PtrTo TestService])
    (fun _ => CallResolve tokService (fun v _ => Return v None)).


(** [func(dep TestImplementation) *TestService] *)
Definition service_of_struct : factory :=
  MkFactory (FuncOf [TestImplementation] [PtrTo TestService])
    (fun _ => New (fun a => Return (VDyn (PtrTo TestService) a) None)).

Definition self_resolving_0 : state :=
  registered tokService self_resolving_service Singleton NewContainer.



Lemma callback_to_own_singleton_deadlocks_witness :
  Resolve test_implements 7 tokService self_resolving_0 = Deadlocks.
Proof.
  apply (callback_to_own_singleton_deadlocks test_implements 5 tokService
           (PtrTo TestService)
           (descriptor_of TestService self_resolving_service Singleton)
           self_resolving_0 (fun v _ => Return v None)).
  - reflexivity.
  - vm_compute; reflexivity.
  - reflexivity.
  - reflexivity.
  - reflexivity.
  - reflexivity.
  - reflexivity.
  - reflexivity.
Defined.


Lemma token_and_pointer_token_share_key_witness :
  Has (VDyn TestImplementation 0) singleton_0
  = Has (VDyn (PtrTo TestImplementation) 0) singleton_0.
Proof.
  destruct (token_and_pointer_token_share_key test_implements TestImplementation
              0 0 (Some new_implementation) Singleton 3 singleton_0)
    as (_ & H & _).
  - discriminate.
  - exact H.
Defined.

Definition struct_consumer_0 : state :=
  registered tokService service_of_struct Transient singleton_0.


Lemma unassignable_dependency_panics_witness :
  Resolve test_implements 3 tokService struct_consumer_0 = Panics.
Proof.
  apply (unassignable_dependency_panics test_implements 2 tokService
           (PtrTo TestService)
           (descriptor_of TestService service_of_struct Transient)
           struct_consumer_0 TestImplementation
           (VDyn (PtrTo TestImplementation) 1)
           (state_after (resolveType test_implements 2 TestImplementation
                           struct_consumer_0))).
  - reflexivity.
  - vm_compute; reflexivity.
  - left; reflexivity.
  - reflexivity.
  - reflexivity.
  - discriminate.
  - vm_compute; reflexivity.
  - reflexivity.
Defined.

Definition implementation_body : list value -> body :=
  fun _ => New (fun a => Return (VDyn (PtrTo TestImplementation) a) None).

Lemma RegisterType_always_succeeds_witness :
  RegisterType test_implements TestInterface implementation_body Singleton
    NewContainer
  = Done None
      (set_services
         (<[TestInterface :=
              MkDescriptor TestInterface
                (MkFactory (FuncOf [containerPtr] [TestInterface]) implementation_body)
                Singleton VNil false]> (services NewContainer)) NewContainer).
Proof.
  apply (RegisterType_always_succeeds test_implements TestInterface
           implementation_body Singleton NewContainer test_implements_reflexive).
Defined.

(** [TestService] does not implement [TestInterface]; the registration
    goes through all the same. *)
Lemma RegisterInterface_does_not_check_implementation_witness :
  RegisterInterface test_implements TestInterface TestService implementation_body
    Transient NewContainer
  = Done None
      (set_services
         (<[TestInterface :=
              MkDescriptor TestInterface
                (MkFactory (FuncOf [containerPtr] [TestInterface]) implementation_body)
                Transient VNil false]> (services NewContainer)) NewContainer).
Proof.
  apply (RegisterInterface_does_not_check_implementation test_implements
           TestInterface TestService implementation_body Transient NewContainer
           test_implements_reflexive).
Defined.

Lemma RegisterValue_round_trip_witness :
  ∃ st1 st2,
    RegisterValue test_implements (PtrTo TestImplementation)
      (VDyn (PtrTo TestImplementation) 1) (fresh NewContainer) = Done None st1
    ∧ Resolve test_implements 1 (nil_ptr (PtrTo TestImplementation)) st1
      = Done (VDyn (PtrTo TestImplementation) 1, None) st2
    ∧ calls st2 = PtrTo TestImplementation :: calls (fresh NewContainer)
    ∧ (∀ fuel', Resolve test_implements (S fuel')
                  (nil_ptr (PtrTo TestImplementation)) st2
                = Done (VDyn (PtrTo TestImplementation) 1, None) st2)
    ∧ (type_assertion test_implements (VDyn (PtrTo TestImplementation) 1)
         (PtrTo TestImplementation) = true →
       TryResolve test_implements (PtrTo TestImplementation) 1 st1
       = Done (VDyn (PtrTo TestImplementation) 1, true) st2
       ∧ MustResolve test_implements (PtrTo TestImplementation) 1 st1
         = Done (VDyn (PtrTo TestImplementation) 1) st2).
Proof.
  apply (RegisterValue_round_trip test_implements (PtrTo TestImplementation)
           (VDyn (PtrTo TestImplementation) 1) (fresh NewContainer) 0).
  - exact test_implements_reflexive.
  - discriminate.
Defined.

Definition func_registered_0 : state :=
  state_after (RegisterFunc test_implements (Some new_implementation) Singleton
                 NewContainer).

(** [RegisterFunc] with the factory that returns [*TestImplementation]:
    the key is the pointer type. *)
Lemma RegisterFunc_key_witness :
  services func_registered_0 !! PtrTo TestImplementation
  = Some (MkDescriptor (PtrTo TestImplementation) new_implementation
            Singleton VNil false)
  ∧ services func_registered_0 !! TestImplementation = None.
Proof.
  destruct (RegisterFunc_key test_implements new_implementation Singleton
              NewContainer func_registered_0) as (H & O & _).
  - vm_compute; reflexivity.
  - split; [exact H|]. rewrite (O TestImplementation); [reflexivity|discriminate].
Defined.


(** The scenario of [TestGetServiceTypes]: two registrations, two keys. *)
Lemma register_lists_key_witness :
  ∃ sType0,
    TypeOf tokInterface = Some sType0
    ∧ (is_Some (services singleton_0 !! service_key sType0) →
       GetServiceTypes (registered tokInterface new_interface Singleton singleton_0)
       ≡ₚ GetServiceTypes singleton_0)
    ∧ (services singleton_0 !! service_key sType0 = None →
       GetServiceTypes (registered tokInterface new_interface Singleton singleton_0)
       ≡ₚ service_key sType0 :: GetServiceTypes singleton_0).
Proof.
  apply (register_lists_key test_implements tokInterface (Some new_interface)
           Singleton singleton_0
           (registered tokInterface new_interface Singleton singleton_0)).
  vm_compute; reflexivity.
Defined.

Lemma reachable_container_ok_witness :
  descriptor_ok test_implements TestImplementation
    (MkDescriptor TestImplementation new_implementation Singleton
       (VDyn (PtrTo TestImplementation) 1) false).
Proof.
  apply (reachable_container_ok test_implements singleton_1).
  - apply (reach_Resolve test_implements singleton_0 3 tokImplementation
             (VDyn (PtrTo TestImplementation) 1, None)).
    + apply (reach_Register test_implements NewContainer tokImplementation
               (Some new_implementation) Singleton None).
      * apply reach_new.
      * vm_compute; reflexivity.
    + vm_compute; reflexivity.
  - vm_compute; reflexivity.
Defined.
